(** * Sweat-drop generators for Inkscape: a shallow embedding

    Two extension scripts are modelled:
      - [sweat_drop.py]           (module [SweatDrop], ellipse drops),
      - [sweatdrop_teardrop.py]   (module [Teardrop], Bezier teardrops).

    Conventions of the model.
      - A Python [float] is a value of [pyfloat]: a finite number, one of
        the two infinities, or NaN.  Finite numbers are real numbers and
        finite arithmetic is exact: rounding and overflow of binary64 are
        idealised away, the special values follow IEEE 754.
      - [str(x)] of a float is kept symbolic ([Num x]); every other string
        is a [string].
      - The process-wide generator of the [random] module is a tape of raw
        draws with a cursor; every call consumes one cell.
      - The SVG document is explicit state: the list of gradient
        definitions under [defs] and the children of the current layer.
      - A Python exception is the left summand of a result; the state
        reached when it was raised is kept, as in Python. *)

From Stdlib Require Import Reals Lra Lia ZArith List String Bool.
From Stdlib Require Import DecimalString DecimalZ DecimalPos FinFun.
Import ListNotations.

Local Open Scope string_scope.

(** ** Python values *)

Module Py.

Inductive pyfloat : Type :=
  | Fin (r : R)
  | Inf (negative : bool)
  | NaN.

Definition is_finite (x : pyfloat) : Prop :=
  match x with Fin _ => True | _ => False end.

(** sign of a non-zero real, [true] for negative *)
Definition Rneg (r : R) : bool :=
  if Rlt_dec r 0 then true else false.

(** [-x] *)
Definition fneg (x : pyfloat) : pyfloat :=
  match x with
  | Fin r => Fin (- r)
  | Inf s => Inf (negb s)
  | NaN => NaN
  end.

(** [x + y] *)
Definition fadd (x y : pyfloat) : pyfloat :=
  match x, y with
  | NaN, _ | _, NaN => NaN
  | Fin a, Fin b => Fin (a + b)
  | Fin _, Inf s | Inf s, Fin _ => Inf s
  | Inf s, Inf t => if Bool.eqb s t then Inf s else NaN
  end.

(** [x - y] *)
Definition fsub (x y : pyfloat) : pyfloat := fadd x (fneg y).

(** [x * y] *)
Definition fmul (x y : pyfloat) : pyfloat :=
  match x, y with
  | NaN, _ | _, NaN => NaN
  | Fin a, Fin b => Fin (a * b)
  | Fin a, Inf s | Inf s, Fin a =>
      if Req_dec_T a 0 then NaN else Inf (xorb s (Rneg a))
  | Inf s, Inf t => Inf (xorb s t)
  end.

(** [x != 0] *)
Definition fne0 (x : pyfloat) : bool :=
  match x with
  | Fin r => if Req_dec_T r 0 then false else true
  | Inf _ => true
  | NaN => true
  end.

(** Exceptions that the modelled code can meet. *)
Inductive exn : Type :=
  | ValueError (msg : string).

(** *** Computations: state is kept when an exception is raised *)

Section Monad.
Context {St : Type}.

Definition M (A : Type) : Type := St -> (exn + A) * St.

Definition ret {A} (a : A) : M A := fun s => (inr a, s).

Definition raise {A} (e : exn) : M A := fun s => (inl e, s).

Definition bind {A B} (m : M A) (k : A -> M B) : M B :=
  fun s =>
    match m s with
    | (inl e, s') => (inl e, s')
    | (inr a, s') => k a s'
    end.

(** [try: m  except Exception as e: pass] *)
Definition try_except_pass (m : M unit) : M unit :=
  fun s =>
    match m s with
    | (inl _, s') => (inr tt, s')
    | (inr _, s') => (inr tt, s')
    end.

(** [for i in range(count): acc = body(i, acc)], [i] running from [start] *)
Fixpoint for_range {A} (n : nat) (start : Z) (body : Z -> A -> M A)
    (acc : A) : M A :=
  match n with
  | O => ret acc
  | S n' => bind (body start acc) (for_range n' (start + 1) body)
  end.
End Monad.

Arguments M : clear implicits.

(** [str(n)] for an [int] *)
Definition str_int (n : Z) : string := NilZero.string_of_int (Z.to_int n).

(** *** The [math] module *)

(** [math.radians(x)]: [x * (pi / 180)] *)
Definition radians (x : pyfloat) : pyfloat := fmul x (Fin (PI / 180)).

(** [math.cos(x)] raises [ValueError] at an infinity and maps NaN to NaN *)
Definition math_cos {St} (x : pyfloat) : M St pyfloat :=
  match x with
  | Fin r => ret (Fin (cos r))
  | NaN => ret NaN
  | Inf _ => raise (ValueError "math domain error")
  end.

Definition math_sin {St} (x : pyfloat) : M St pyfloat :=
  match x with
  | Fin r => ret (Fin (sin r))
  | NaN => ret NaN
  | Inf _ => raise (ValueError "math domain error")
  end.

(** *** The [random] module *)

Record rng : Type := mkRng { tape : nat -> N; cursor : nat }.

Definition two53 : Z := 9007199254740992.

(** the next raw draw *)
Definition next_raw (g : rng) : N * rng :=
  (tape g (cursor g), mkRng (tape g) (S (cursor g))).

(** [random.random()]: a multiple of 2^-53 in [0, 1) *)
Definition unit_of_raw (k : N) : R :=
  IZR (Z.of_N k mod two53) / IZR two53.

(** [random.randint(a, b)]: [a + randbelow(b - a + 1)] *)
Definition int_of_raw (a b : Z) (k : N) : Z :=
  a + Z.of_N k mod (b - a + 1).

End Py.

(** ** The document model offered by the host ([inkex]) *)

Module Svg.
Import Py.

(** One whitespace-free word of a path's [d] attribute: a command letter
    or a coordinate pair [{x},{y}]. *)
Inductive token : Type :=
  | Cmd (c : string)
  | Pt (x y : pyfloat).

(** Attribute and style values. [Num x] stands for [str(x)]. *)
Inductive value : Type :=
  | Text (s : string)
  | Num (x : pyfloat)
  | PathData (d : list token).

Definition alist : Type := list (string * value).

Fixpoint get (k : string) (l : alist) : option value :=
  match l with
  | [] => None
  | (k', v) :: l' => if String.eqb k k' then Some v else get k l'
  end.

(** [elem.set(k, v)]: replace the attribute, or add it after the others *)
Fixpoint set (k : string) (v : value) (l : alist) : alist :=
  match l with
  | [] => [(k, v)]
  | (k', v') :: l' =>
      if String.eqb k k' then (k, v) :: l' else (k', v') :: set k v l'
  end.

Inductive tag : Type := Ellipse | PathElement.

(** [inkex.Transform(rotate=(angle, cx, cy))]; the constructors of the
    host are data here, their code is not part of the extensions *)
Inductive transform_t : Type :=
  | Rotate (angle cx cy : pyfloat).

Record shape : Type := mkShape {
  shape_tag : tag;
  attrib : alist;
  style : alist;
  transform : option transform_t
}.

Record group (A : Type) : Type := mkGroup {
  label : string;
  children : list A
}.
Arguments mkGroup {A}.
Arguments label {A}.
Arguments children {A}.

(** [g.add(child)] *)
Definition add {A} (g : group A) (child : A) : group A :=
  mkGroup (label g) (children g ++ [child]).

Record stop : Type := mkStop {
  stop_attrib : alist;
  stop_style : alist
}.

Inductive gradient_tag : Type := LinearGradient | RadialGradient.

Record gradient : Type := mkGradient {
  gradient_tag_of : gradient_tag;
  gradient_attrib : alist;
  stops : list stop
}.

(** The state the extension works on: the generator of [random], and of
    the document [self.svg] its [defs] and the children of the current
    layer. *)
Record world : Type := mkWorld {
  rand : rng;
  defs : list gradient;
  layer : list (group (group shape))
}.

Definition random_random : M world pyfloat :=
  fun w =>
    let (k, g) := next_raw (rand w) in
    (inr (Fin (unit_of_raw k)), mkWorld g (defs w) (layer w)).

(** [random.uniform(a, b)]: [a + (b - a) * self.random()]. In binary64
    the sum can round to [b]; the statements below only use the closed
    range between [a] and [b]. *)
Definition random_uniform (a b : pyfloat) : M world pyfloat :=
  bind random_random (fun r => ret (fadd a (fmul (fsub b a) r))).

(** [random.randint(a, b)] *)
Definition random_randint (a b : Z) : M world Z :=
  fun w =>
    let (k, g) := next_raw (rand w) in
    (inr (int_of_raw a b k), mkWorld g (defs w) (layer w)).

(** [self.svg.defs.add(gradient)] *)
Definition defs_add (g : gradient) : M world unit :=
  fun w => (inr tt, mkWorld (rand w) (defs w ++ [g]) (layer w)).

(** [self.svg.get_current_layer().add(main_group)] *)
Definition layer_add (g : group (group shape)) : M world unit :=
  fun w => (inr tt, mkWorld (rand w) (defs w) (layer w ++ [g])).

Definition gradient_id (g : gradient) : option value :=
  get "id" (gradient_attrib g).

(** The coordinate pairs of a path, in the order they are emitted. *)
Fixpoint coords (d : list token) : list (pyfloat * pyfloat) :=
  match d with
  | [] => []
  | Pt x y :: d' => (x, y) :: coords d'
  | Cmd _ :: d' => coords d'
  end.

(** The number of cubic segments: a [C] followed by three pairs. *)
Fixpoint cubic_segments (d : list token) : nat :=
  match d with
  | Cmd "C" :: Pt _ _ :: Pt _ _ :: Pt _ _ :: d' => S (cubic_segments d')
  | _ :: d' => cubic_segments d'
  | [] => O
  end.

End Svg.

Declare Scope py_scope.
Delimit Scope py_scope with py.
Notation "x <- m ;; k" := (Py.bind m (fun x => k))
  (at level 61, m at next level, right associativity) : py_scope.
Notation "m ;;; k" := (Py.bind m (fun _ => k))
  (at level 61, right associativity) : py_scope.

Local Open Scope py_scope.

(** ** [sweat_drop.py]: class [SweatDropsExtension] *)

Module SweatDrop.
Import Py Svg.

(** [self.options], as [add_arguments] declares them *)
Record options : Type := mkOptions {
  drop_count : Z;
  drop_size : pyfloat;
  size_variation : pyfloat;
  shadow_angle : pyfloat;
  shadow_distance : pyfloat;
  shadow_opacity : pyfloat;
  highlight_angle : pyfloat;
  highlight_size : pyfloat;
  highlight_opacity : pyfloat;
  area_width : pyfloat;
  area_height : pyfloat;
  blend_mode : string
}.

(** the defaults of [add_arguments] *)
Definition default_options : options :=
  {| drop_count := 5;
     drop_size := Fin 20;
     size_variation := Fin (3 / 10);
     shadow_angle := Fin 45;
     shadow_distance := Fin 3;
     shadow_opacity := Fin (515 / 1000);
     highlight_angle := Fin 135;
     highlight_size := Fin (3 / 10);
     highlight_opacity := Fin (963 / 1000);
     area_width := Fin 200;
     area_height := Fin 200;
     blend_mode := "normal" |}.

Section Extension.
Variable o : options.

Definition create_shadow_gradient : M world string :=
  n <- random_randint 1000 9999 ;;
  let gradient_id := "shadowGradient_" ++ str_int n in
  let gradient := set "id" (Text gradient_id) [] in
  let stop1 :=
    mkStop (set "offset" (Text "0%") [])
           [("stop-color", Text "#000000");
            ("stop-opacity", Num (shadow_opacity o))] in
  let stop2 :=
    mkStop (set "offset" (Text "100%") [])
           [("stop-color", Text "#000000");
            ("stop-opacity", Text "0.0")] in
  defs_add (mkGradient LinearGradient gradient [stop1; stop2]) ;;;
  ret gradient_id.

Definition create_drop_gradient : M world string :=
  n <- random_randint 1000 9999 ;;
  let gradient_id := "dropGradient_" ++ str_int n in
  let gradient :=
    set "r" (Text "0.7")
      (set "cy" (Text "0.3")
         (set "cx" (Text "0.3") (set "id" (Text gradient_id) []))) in
  let stop1 :=
    mkStop (set "offset" (Text "0%") [])
           [("stop-color", Text "#ffffff");
            ("stop-opacity", Text "0.0")] in
  let stop2 :=
    mkStop (set "offset" (Text "37%") [])
           [("stop-color", Text "#121212");
            ("stop-opacity", Text "0.014")] in
  let stop3 :=
    mkStop (set "offset" (Text "100%") [])
           [("stop-color", Text "#ffffff");
            ("stop-opacity", Text "0.286")] in
  defs_add (mkGradient RadialGradient gradient [stop1; stop2; stop3]) ;;;
  ret gradient_id.

Definition create_shadow (x y size : pyfloat) : M world shape :=
  let angle_rad := radians (shadow_angle o) in
  c <- math_cos angle_rad ;;
  let shadow_x := fadd x (fmul c (shadow_distance o)) in
  s <- math_sin angle_rad ;;
  let shadow_y := fadd y (fmul s (shadow_distance o)) in
  let shadow :=
    set "ry" (Num (fmul size (Fin (8 / 10))))
      (set "rx" (Num (fmul size (Fin (6 / 10))))
         (set "cy" (Num shadow_y) (set "cx" (Num shadow_x) []))) in
  shadow_gradient_id <- create_shadow_gradient ;;
  ret (mkShape Ellipse shadow
         [("fill", Text ("url(#" ++ shadow_gradient_id ++ ")"));
          ("stroke", Text "none");
          ("mix-blend-mode", Text (blend_mode o))]
         None).

Definition create_main_drop (x y size : pyfloat) : M world shape :=
  let drop :=
    set "ry" (Num (fmul size (Fin (8 / 10))))
      (set "rx" (Num (fmul size (Fin (6 / 10))))
         (set "cy" (Num y) (set "cx" (Num x) []))) in
  gradient_id <- create_drop_gradient ;;
  ret (mkShape Ellipse drop
         [("fill", Text ("url(#" ++ gradient_id ++ ")"));
          ("stroke", Text "none");
          ("mix-blend-mode", Text (blend_mode o));
          ("opacity", Text "1")]
         None).

Definition create_highlight (x y size : pyfloat) : M world shape :=
  let angle_rad := radians (highlight_angle o) in
  let highlight_offset := fmul size (Fin (3 / 10)) in
  c <- math_cos angle_rad ;;
  let highlight_x := fadd x (fmul c highlight_offset) in
  s <- math_sin angle_rad ;;
  let highlight_y := fadd y (fmul s highlight_offset) in
  let highlight_size := fmul size (highlight_size o) in
  let highlight :=
    set "ry" (Num (fmul highlight_size (Fin (6 / 10))))
      (set "rx" (Num (fmul highlight_size (Fin (4 / 10))))
         (set "cy" (Num highlight_y) (set "cx" (Num highlight_x) []))) in
  ret (mkShape Ellipse highlight
         [("fill", Text "#ffffff");
          ("fill-opacity", Num (highlight_opacity o));
          ("stroke", Text "none");
          ("mix-blend-mode", Text (blend_mode o))]
         None).

(** Lines 76-92 of [create_single_drop]: the group of one drop, once
    its size and position are drawn. *)
Definition build_drop_group (index : Z) (x y drop_size : pyfloat)
    : M world (group shape) :=
  let drop_group := mkGroup ("Drop_" ++ str_int (index + 1)) [] in
  shadow <- create_shadow x y drop_size ;;
  let drop_group := add drop_group shadow in
  main_drop <- create_main_drop x y drop_size ;;
  let drop_group := add drop_group main_drop in
  highlight <- create_highlight x y drop_size ;;
  let drop_group := add drop_group highlight in
  ret drop_group.

Definition create_single_drop (index : Z) (base_size size_variation : pyfloat)
    : M world (group shape) :=
  u <- random_uniform (fneg size_variation) size_variation ;;
  let size_factor := fadd (Fin 1) u in
  let drop_size := fmul base_size size_factor in
  x <- random_uniform (Fin 0) (area_width o) ;;
  y <- random_uniform (Fin 0) (area_height o) ;;
  build_drop_group index x y drop_size.

(** the body of the [try] block of [effect] *)
Definition effect_body : M world unit :=
  let count := drop_count o in
  let base_size := drop_size o in
  let size_var := size_variation o in
  let main_group := mkGroup "Sweat Drops" [] in
  main_group <-
    for_range (Z.to_nat count) 0
      (fun i main_group =>
         drop_group <- create_single_drop i base_size size_var ;;
         ret (add main_group drop_group))
      main_group ;;
  layer_add main_group.

Definition effect : M world unit := try_except_pass effect_body.

End Extension.

End SweatDrop.

(** ** [sweatdrop_teardrop.py]: class [TeardropSweatDropsExtension] *)

Module Teardrop.
Import Py Svg.

Record options : Type := mkOptions {
  drop_count : Z;
  drop_size : pyfloat;
  size_variation : pyfloat;
  teardrop_ratio : pyfloat;
  shadow_angle : pyfloat;
  shadow_distance : pyfloat;
  shadow_opacity : pyfloat;
  highlight_angle : pyfloat;
  highlight_size : pyfloat;
  highlight_opacity : pyfloat;
  area_width : pyfloat;
  area_height : pyfloat;
  rotation_variation : pyfloat;
  blend_mode : string
}.

Definition default_options : options :=
  {| drop_count := 5;
     drop_size := Fin 20;
     size_variation := Fin (3 / 10);
     teardrop_ratio := Fin (15 / 10);
     shadow_angle := Fin 45;
     shadow_distance := Fin 3;
     shadow_opacity := Fin (2 / 10);
     highlight_angle := Fin 135;
     highlight_size := Fin (3 / 10);
     highlight_opacity := Fin 1;
     area_width := Fin 200;
     area_height := Fin 200;
     rotation_variation := Fin 30;
     blend_mode := "hard-light" |}.

Section Extension.
Variable o : options.

(** The f-string of [path_data], split at white space and joined by
    single blanks: its words in order.  [rotation] is not used. *)
Definition create_teardrop_path (x y size rotation : pyfloat)
    : list token :=
  let width := fmul size (Fin (6 / 10)) in
  let height := fmul size (teardrop_ratio o) in
  let bottom_y := fadd y (fmul height (Fin (3 / 10))) in
  let top_y := fsub y (fmul height (Fin (7 / 10))) in
  let cx1 := fsub x (fmul width (Fin (5 / 10))) in
  let cx2 := fadd x (fmul width (Fin (5 / 10))) in
  let cy_mid := y in
  [ Cmd "M"; Pt x bottom_y;
    Cmd "C"; Pt cx1 bottom_y; Pt cx1 cy_mid;
             Pt cx1 (fsub cy_mid (fmul height (Fin (2 / 10))));
    Cmd "C"; Pt cx1 (fadd top_y (fmul height (Fin (3 / 10))));
             Pt (fsub x (fmul width (Fin (2 / 10))))
                (fadd top_y (fmul height (Fin (1 / 10))));
             Pt x top_y;
    Cmd "C"; Pt (fadd x (fmul width (Fin (2 / 10))))
                (fadd top_y (fmul height (Fin (1 / 10))));
             Pt cx2 (fadd top_y (fmul height (Fin (3 / 10))));
             Pt cx2 (fsub cy_mid (fmul height (Fin (2 / 10))));
    Cmd "C"; Pt cx2 cy_mid; Pt cx2 bottom_y; Pt x bottom_y;
    Cmd "Z" ].

Definition create_shadow_gradient : M world string :=
  n <- random_randint 1000 9999 ;;
  let gradient_id := "shadowGradient_" ++ str_int n in
  let gradient := set "id" (Text gradient_id) [] in
  let stop1 :=
    mkStop (set "offset" (Text "0%") [])
           [("stop-color", Text "#000000");
            ("stop-opacity", Num (shadow_opacity o))] in
  let stop2 :=
    mkStop (set "offset" (Text "100%") [])
           [("stop-color", Text "#000000");
            ("stop-opacity", Text "0.0")] in
  defs_add (mkGradient LinearGradient gradient [stop1; stop2]) ;;;
  ret gradient_id.

Definition create_drop_gradient : M world string :=
  n <- random_randint 1000 9999 ;;
  let gradient_id := "dropGradient_" ++ str_int n in
  let gradient :=
    set "r" (Text "0.7")
      (set "cy" (Text "0.3")
         (set "cx" (Text "0.3") (set "id" (Text gradient_id) []))) in
  let stop1 :=
    mkStop (set "offset" (Text "0%") [])
           [("stop-color", Text "#ffffff");
            ("stop-opacity", Text "0.0")] in
  let stop2 :=
    mkStop (set "offset" (Text "37%") [])
           [("stop-color", Text "#121212");
            ("stop-opacity", Text "0.014")] in
  let stop3 :=
    mkStop (set "offset" (Text "100%") [])
           [("stop-color", Text "#ffffff");
            ("stop-opacity", Text "0.286")] in
  defs_add (mkGradient RadialGradient gradient [stop1; stop2; stop3]) ;;;
  ret gradient_id.

(** [if rotation != 0: path.transform = inkex.Transform(rotate=...)] *)
Definition rotate_about (rotation cx cy : pyfloat) : option transform_t :=
  if fne0 rotation then Some (Rotate rotation cx cy) else None.

Definition create_teardrop_shadow (x y size rotation : pyfloat)
    : M world shape :=
  let angle_rad := radians (shadow_angle o) in
  c <- math_cos angle_rad ;;
  let shadow_x := fadd x (fmul c (shadow_distance o)) in
  s <- math_sin angle_rad ;;
  let shadow_y := fadd y (fmul s (shadow_distance o)) in
  let path_data := create_teardrop_path shadow_x shadow_y size rotation in
  let shadow_path := set "d" (PathData path_data) [] in
  shadow_gradient_id <- create_shadow_gradient ;;
  ret (mkShape PathElement shadow_path
         [("fill", Text ("url(#" ++ shadow_gradient_id ++ ")"));
          ("stroke", Text "none");
          ("mix-blend-mode", Text (blend_mode o))]
         (rotate_about rotation shadow_x shadow_y)).

Definition create_teardrop_main (x y size rotation : pyfloat)
    : M world shape :=
  let path_data := create_teardrop_path x y size rotation in
  let main_path := set "d" (PathData path_data) [] in
  gradient_id <- create_drop_gradient ;;
  ret (mkShape PathElement main_path
         [("fill", Text ("url(#" ++ gradient_id ++ ")"));
          ("stroke", Text "none");
          ("mix-blend-mode", Text (blend_mode o));
          ("opacity", Text "1")]
         (rotate_about rotation x y)).

Definition create_teardrop_highlight (x y size rotation : pyfloat)
    : M world shape :=
  let angle_rad := radians (highlight_angle o) in
  let highlight_offset := fmul size (Fin (2 / 10)) in
  c <- math_cos angle_rad ;;
  let highlight_x := fadd x (fmul c highlight_offset) in
  s <- math_sin angle_rad ;;
  let highlight_y := fadd y (fmul s highlight_offset) in
  let highlight_size := fmul size (highlight_size o) in
  let path_data :=
    create_teardrop_path highlight_x highlight_y highlight_size rotation in
  let highlight_path := set "d" (PathData path_data) [] in
  ret (mkShape PathElement highlight_path
         [("fill", Text "#ffffff");
          ("fill-opacity", Num (highlight_opacity o));
          ("stroke", Text "none");
          ("mix-blend-mode", Text (blend_mode o))]
         (rotate_about rotation highlight_x highlight_y)).

(** Lines 82-98 of [create_single_teardrop]: the group of one teardrop,
    once its size, position and rotation are drawn. *)
Definition build_drop_group (index : Z) (x y drop_size rotation : pyfloat)
    : M world (group shape) :=
  let drop_group := mkGroup ("Teardrop_" ++ str_int (index + 1)) [] in
  shadow <- create_teardrop_shadow x y drop_size rotation ;;
  let drop_group := add drop_group shadow in
  main_drop <- create_teardrop_main x y drop_size rotation ;;
  let drop_group := add drop_group main_drop in
  highlight <- create_teardrop_highlight x y drop_size rotation ;;
  let drop_group := add drop_group highlight in
  ret drop_group.

Definition create_single_teardrop (index : Z)
    (base_size size_variation : pyfloat) : M world (group shape) :=
  u <- random_uniform (fneg size_variation) size_variation ;;
  let size_factor := fadd (Fin 1) u in
  let drop_size := fmul base_size size_factor in
  x <- random_uniform (Fin 0) (area_width o) ;;
  y <- random_uniform (Fin 0) (area_height o) ;;
  rotation <-
    random_uniform (fneg (rotation_variation o)) (rotation_variation o) ;;
  build_drop_group index x y drop_size rotation.

(** the body of the [try] block of [effect] *)
Definition effect_body : M world unit :=
  let count := drop_count o in
  let base_size := drop_size o in
  let size_var := size_variation o in
  let main_group := mkGroup "Teardrop Sweat Drops" [] in
  main_group <-
    for_range (Z.to_nat count) 0
      (fun i main_group =>
         drop_group <- create_single_teardrop i base_size size_var ;;
         ret (add main_group drop_group))
      main_group ;;
  layer_add main_group.

Definition effect : M world unit := try_except_pass effect_body.

End Extension.

End Teardrop.

(** ** Vocabulary of the statements *)

Import Py Svg.
Local Close Scope list_scope.
Local Open Scope list_scope.

(** the world after one draw from the generator *)
Definition tick (w : world) : world :=
  mkWorld (mkRng (tape (rand w)) (S (cursor (rand w)))) (defs w) (layer w).

(** the value [random.random()] returns in world [w] *)
Definition unit_draw (w : world) : R :=
  unit_of_raw (tape (rand w) (cursor (rand w))).

(** the value [random.randint(1000, 9999)] returns in world [w] *)
Definition id_draw (w : world) : Z :=
  int_of_raw 1000 9999 (tape (rand w) (cursor (rand w))).

(** a generator that returns the raw draw [k] for ever *)
Definition constant_rng (k : N) : rng := mkRng (fun _ => k) 0.

(** an empty document, with a constant generator *)
Definition empty_world (k : N) : world := mkWorld (constant_rng k) [] [].

(** The precondition of a generation run: a count that is not negative
    and finite numeric parameters. *)
Definition valid_sweat_options (o : SweatDrop.options) : Prop :=
  (0 <= SweatDrop.drop_count o)%Z /\
  is_finite (SweatDrop.drop_size o) /\
  is_finite (SweatDrop.size_variation o) /\
  is_finite (SweatDrop.shadow_angle o) /\
  is_finite (SweatDrop.shadow_distance o) /\
  is_finite (SweatDrop.shadow_opacity o) /\
  is_finite (SweatDrop.highlight_angle o) /\
  is_finite (SweatDrop.highlight_size o) /\
  is_finite (SweatDrop.highlight_opacity o) /\
  is_finite (SweatDrop.area_width o) /\
  is_finite (SweatDrop.area_height o).

Definition valid_teardrop_options (o : Teardrop.options) : Prop :=
  (0 <= Teardrop.drop_count o)%Z /\
  is_finite (Teardrop.drop_size o) /\
  is_finite (Teardrop.size_variation o) /\
  is_finite (Teardrop.teardrop_ratio o) /\
  is_finite (Teardrop.shadow_angle o) /\
  is_finite (Teardrop.shadow_distance o) /\
  is_finite (Teardrop.shadow_opacity o) /\
  is_finite (Teardrop.highlight_angle o) /\
  is_finite (Teardrop.highlight_size o) /\
  is_finite (Teardrop.highlight_opacity o) /\
  is_finite (Teardrop.area_width o) /\
  is_finite (Teardrop.area_height o) /\
  is_finite (Teardrop.rotation_variation o).

(** The options of the specification's example: one drop of size 20
    without size variation in an area of width and height 0, the shadow
    at 45 degrees and distance 3. *)
Definition example_options : SweatDrop.options :=
  {| SweatDrop.drop_count := 1;
     SweatDrop.drop_size := Fin 20;
     SweatDrop.size_variation := Fin 0;
     SweatDrop.shadow_angle := Fin 45;
     SweatDrop.shadow_distance := Fin 3;
     SweatDrop.shadow_opacity := Fin (515 / 1000);
     SweatDrop.highlight_angle := Fin 135;
     SweatDrop.highlight_size := Fin (3 / 10);
     SweatDrop.highlight_opacity := Fin (963 / 1000);
     SweatDrop.area_width := Fin 0;
     SweatDrop.area_height := Fin 0;
     SweatDrop.blend_mode := "normal" |}.

(** the same example for the teardrop variant, the other options at
    their defaults *)
Definition teardrop_example_options : Teardrop.options :=
  {| Teardrop.drop_count := 1;
     Teardrop.drop_size := Fin 20;
     Teardrop.size_variation := Fin 0;
     Teardrop.teardrop_ratio := Fin (15 / 10);
     Teardrop.shadow_angle := Fin 45;
     Teardrop.shadow_distance := Fin 3;
     Teardrop.shadow_opacity := Fin (2 / 10);
     Teardrop.highlight_angle := Fin 135;
     Teardrop.highlight_size := Fin (3 / 10);
     Teardrop.highlight_opacity := Fin 1;
     Teardrop.area_width := Fin 0;
     Teardrop.area_height := Fin 0;
     Teardrop.rotation_variation := Fin 30;
     Teardrop.blend_mode := "hard-light" |}.

(** the defaults with one drop and an infinite shadow angle, as
    [--shadow_angle inf] sets it *)
Definition infinite_angle_options : SweatDrop.options :=
  {| SweatDrop.drop_count := 1;
     SweatDrop.drop_size := Fin 20;
     SweatDrop.size_variation := Fin (3 / 10);
     SweatDrop.shadow_angle := Inf false;
     SweatDrop.shadow_distance := Fin 3;
     SweatDrop.shadow_opacity := Fin (515 / 1000);
     SweatDrop.highlight_angle := Fin 135;
     SweatDrop.highlight_size := Fin (3 / 10);
     SweatDrop.highlight_opacity := Fin (963 / 1000);
     SweatDrop.area_width := Fin 200;
     SweatDrop.area_height := Fin 200;
     SweatDrop.blend_mode := "normal" |}.

(** the defaults with one drop of size NaN, as [--drop_size nan] sets it *)
Definition nan_size_options : SweatDrop.options :=
  {| SweatDrop.drop_count := 1;
     SweatDrop.drop_size := NaN;
     SweatDrop.size_variation := Fin (3 / 10);
     SweatDrop.shadow_angle := Fin 45;
     SweatDrop.shadow_distance := Fin 3;
     SweatDrop.shadow_opacity := Fin (515 / 1000);
     SweatDrop.highlight_angle := Fin 135;
     SweatDrop.highlight_size := Fin (3 / 10);
     SweatDrop.highlight_opacity := Fin (963 / 1000);
     SweatDrop.area_width := Fin 200;
     SweatDrop.area_height := Fin 200;
     SweatDrop.blend_mode := "normal" |}.

(** the defaults with two drops *)
Definition two_drops_options : SweatDrop.options :=
  {| SweatDrop.drop_count := 2;
     SweatDrop.drop_size := Fin 20;
     SweatDrop.size_variation := Fin (3 / 10);
     SweatDrop.shadow_angle := Fin 45;
     SweatDrop.shadow_distance := Fin 3;
     SweatDrop.shadow_opacity := Fin (515 / 1000);
     SweatDrop.highlight_angle := Fin 135;
     SweatDrop.highlight_size := Fin (3 / 10);
     SweatDrop.highlight_opacity := Fin (963 / 1000);
     SweatDrop.area_width := Fin 200;
     SweatDrop.area_height := Fin 200;
     SweatDrop.blend_mode := "normal" |}.

Definition two_teardrops_options : Teardrop.options :=
  {| Teardrop.drop_count := 2;
     Teardrop.drop_size := Fin 20;
     Teardrop.size_variation := Fin (3 / 10);
     Teardrop.teardrop_ratio := Fin (15 / 10);
     Teardrop.shadow_angle := Fin 45;
     Teardrop.shadow_distance := Fin 3;
     Teardrop.shadow_opacity := Fin (2 / 10);
     Teardrop.highlight_angle := Fin 135;
     Teardrop.highlight_size := Fin (3 / 10);
     Teardrop.highlight_opacity := Fin 1;
     Teardrop.area_width := Fin 200;
     Teardrop.area_height := Fin 200;
     Teardrop.rotation_variation := Fin 30;
     Teardrop.blend_mode := "hard-light" |}.

(** the generator of [w] returns the raw draw 0 for ever *)
Definition zero_tape (w : world) : Prop :=
  forall n, tape (rand w) n = 0%N.

(** the identifiers of the two gradients of a drop when [randint]
    returns 1000 for both *)
Definition colliding_ids : list (option value) :=
  [Some (Text "shadowGradient_1000"); Some (Text "dropGradient_1000")].

(** [x] is one of the two infinities *)
Definition is_infinite (x : pyfloat) : Prop :=
  match x with Inf _ => True | _ => False end.

(** the real number a finite float stands for *)
Definition real_of (x : pyfloat) : option R :=
  match x with Fin r => Some r | _ => None end.

(** the coordinate pairs of a path as real pairs, when all are finite *)
Fixpoint real_coords (l : list (pyfloat * pyfloat)) : option (list (R * R)) :=
  match l with
  | [] => Some []
  | (x, y) :: l' =>
      match real_of x, real_of y, real_coords l' with
      | Some a, Some b, Some ps => Some ((a, b) :: ps)
      | _, _, _ => None
      end
  end.

(** the path data of a shape, and the real outline it draws *)
Definition path_of (s : shape) : list token :=
  match get "d" (attrib s) with
  | Some (PathData d) => d
  | _ => []
  end.

Definition outline (s : shape) : option (list (R * R)) :=
  real_coords (coords (path_of s)).

(** the [fill] of a shape *)
Definition fill_of (s : shape) : option value := get "fill" (style s).

(** [url(#id)] *)
Definition url (id : string) : value := Text ("url(#" ++ id ++ ")").

(** One drop constructor call seen from outside: it takes [draws] cells
    of the tape, leaves the layer alone, appends a linear and a radial
    gradient to [defs], and returns a group of three shapes of which the
    first is filled by the linear gradient, the second by the radial one
    and the third by plain white. *)
Definition drop_step (draws : nat) (w : world) (g : group shape) (w' : world)
    : Prop :=
  tape (rand w') = tape (rand w) /\
  cursor (rand w') = (cursor (rand w) + draws)%nat /\
  layer w' = layer w /\
  exists gs gb ids idb shadow body highlight,
    defs w' = defs w ++ [gs; gb] /\
    gradient_tag_of gs = LinearGradient /\
    gradient_tag_of gb = RadialGradient /\
    gradient_id gs = Some (Text ids) /\
    gradient_id gb = Some (Text idb) /\
    children g = [shadow; body; highlight] /\
    fill_of shadow = Some (url ids) /\
    fill_of body = Some (url idb) /\
    fill_of highlight = Some (Text "#ffffff").

(** a sequence of constructor calls, each starting in the world the
    previous one left *)
Inductive steps {A} (step : world -> A -> world -> Prop)
    : world -> list A -> world -> Prop :=
  | steps_nil w : steps step w [] w
  | steps_cons w g w1 gs w2 :
      step w g w1 -> steps step w1 gs w2 -> steps step w (g :: gs) w2.

(** every gradient reference of the shapes of [g] names a gradient of
    [ds] *)
Definition references_resolved (ds : list gradient) (g : group shape) : Prop :=
  forall s id,
    In s (children g) -> fill_of s = Some (url id) ->
    exists gr, In gr ds /\ gradient_id gr = Some (Text id).

(** the defaults with one drop and an infinite highlight angle *)
Definition infinite_highlight_options : SweatDrop.options :=
  {| SweatDrop.drop_count := 1;
     SweatDrop.drop_size := Fin 20;
     SweatDrop.size_variation := Fin (3 / 10);
     SweatDrop.shadow_angle := Fin 45;
     SweatDrop.shadow_distance := Fin 3;
     SweatDrop.shadow_opacity := Fin (515 / 1000);
     SweatDrop.highlight_angle := Inf false;
     SweatDrop.highlight_size := Fin (3 / 10);
     SweatDrop.highlight_opacity := Fin (963 / 1000);
     SweatDrop.area_width := Fin 200;
     SweatDrop.area_height := Fin 200;
     SweatDrop.blend_mode := "normal" |}.

(** the defaults with a negative count, as [--drop_count -3] sets it *)
Definition negative_count_options : SweatDrop.options :=
  {| SweatDrop.drop_count := -3;
     SweatDrop.drop_size := Fin 20;
     SweatDrop.size_variation := Fin (3 / 10);
     SweatDrop.shadow_angle := Fin 45;
     SweatDrop.shadow_distance := Fin 3;
     SweatDrop.shadow_opacity := Fin (515 / 1000);
     SweatDrop.highlight_angle := Fin 135;
     SweatDrop.highlight_size := Fin (3 / 10);
     SweatDrop.highlight_opacity := Fin (963 / 1000);
     SweatDrop.area_width := Fin 200;
     SweatDrop.area_height := Fin 200;
     SweatDrop.blend_mode := "normal" |}.

(** the teardrop defaults with a rotation variation of 0 *)
Definition upright_options : Teardrop.options :=
  {| Teardrop.drop_count := 5;
     Teardrop.drop_size := Fin 20;
     Teardrop.size_variation := Fin (3 / 10);
     Teardrop.teardrop_ratio := Fin (15 / 10);
     Teardrop.shadow_angle := Fin 45;
     Teardrop.shadow_distance := Fin 3;
     Teardrop.shadow_opacity := Fin (2 / 10);
     Teardrop.highlight_angle := Fin 135;
     Teardrop.highlight_size := Fin (3 / 10);
     Teardrop.highlight_opacity := Fin 1;
     Teardrop.area_width := Fin 200;
     Teardrop.area_height := Fin 200;
     Teardrop.rotation_variation := Fin 0;
     Teardrop.blend_mode := "hard-light" |}.

(** a run of [m] from [w] ends with an exception *)
Definition raises {A} (m : M world A) (w : world) : Prop :=
  exists e w', m w = (inl e, w').

(** What a computation may do to the world: it draws from the one tape,
    leaves the layer alone and only appends to [defs] gradients that
    satisfy [P]. The result may be an exception. *)
Definition appends_defs {A} (P : gradient -> Prop) (m : M world A) : Prop :=
  forall w r w',
    m w = (r, w') ->
    tape (rand w') = tape (rand w) /\
    layer w' = layer w /\
    exists new, defs w' = (defs w ++ new)%list /\ Forall P new.

(** the gradients that a run of [m] from [w] adds to [defs] *)
Definition added_defs {A} (m : M world A) (w : world) : list gradient :=
  skipn (List.length (defs w)) (defs (snd (m w))).

(** what the claims say of a gradient: its kind, the centre and radius
    attributes if any, and its stops *)
Definition recipe_of (g : gradient)
    : gradient_tag * option value * option value * option value * list stop :=
  (gradient_tag_of g,
   get "cx" (gradient_attrib g), get "cy" (gradient_attrib g),
   get "r" (gradient_attrib g), stops g).

(** The stops of the shadow gradient, as the specification lists them:
    (0%, black, shadow_opacity) and (100%, black, 0.0). *)
Definition spec_shadow_stops (opacity : pyfloat) : list stop :=
  [ mkStop [("offset", Text "0%")]
           [("stop-color", Text "#000000"); ("stop-opacity", Num opacity)];
    mkStop [("offset", Text "100%")]
           [("stop-color", Text "#000000"); ("stop-opacity", Text "0.0")] ].

(** The stops of the body gradient, as the specification lists them:
    (0%, white, 0.0), (37%, #121212, 0.014), (100%, white, 0.286). *)
Definition spec_body_stops : list stop :=
  [ mkStop [("offset", Text "0%")]
           [("stop-color", Text "#ffffff"); ("stop-opacity", Text "0.0")];
    mkStop [("offset", Text "37%")]
           [("stop-color", Text "#121212"); ("stop-opacity", Text "0.014")];
    mkStop [("offset", Text "100%")]
           [("stop-color", Text "#ffffff"); ("stop-opacity", Text "0.286")] ].

(** a linear gradient with the shadow stops and a [shadowGradient_] id *)
Definition is_shadow_gradient (opacity : pyfloat) (g : gradient) : Prop :=
  gradient_tag_of g = LinearGradient /\
  stops g = spec_shadow_stops opacity /\
  exists n, (1000 <= n <= 9999)%Z /\
    gradient_attrib g = [("id", Text ("shadowGradient_" ++ str_int n))].

(** a radial gradient about (0.3, 0.3) of radius 0.7 with the body stops
    and a [dropGradient_] id *)
Definition is_body_gradient (g : gradient) : Prop :=
  gradient_tag_of g = RadialGradient /\
  stops g = spec_body_stops /\
  exists n, (1000 <= n <= 9999)%Z /\
    gradient_attrib g =
      [("id", Text ("dropGradient_" ++ str_int n));
       ("cx", Text "0.3"); ("cy", Text "0.3"); ("r", Text "0.7")].

Definition recipe_gradient (opacity : pyfloat) (g : gradient) : Prop :=
  is_shadow_gradient opacity g \/ is_body_gradient g.

(** ** Basic facts *)

Local Open Scope R_scope.

Lemma unit_of_raw_range (k : N) : 0 <= unit_of_raw k < 1.
Proof.
  unfold unit_of_raw.
  assert (H : (0 <= Z.of_N k mod two53 < two53)%Z)
    by (apply Z.mod_pos_bound; reflexivity).
  assert (Hp : 0 < IZR two53) by (apply IZR_lt; reflexivity).
  destruct H as [H0 H1]. apply IZR_le in H0. apply IZR_lt in H1.
  split.
  - apply Rmult_le_pos; [exact H0 | left; apply Rinv_0_lt_compat; exact Hp].
  - apply Rmult_lt_reg_r with (r := IZR two53); [exact Hp |].
    unfold Rdiv. rewrite Rmult_assoc, Rinv_l by lra. lra.
Qed.

Lemma unit_draw_range (w : world) : 0 <= unit_draw w < 1.
Proof. apply unit_of_raw_range. Qed.

Lemma id_draw_range (w : world) : (1000 <= id_draw w <= 9999)%Z.
Proof.
  unfold id_draw, int_of_raw.
  pose proof (Z.mod_pos_bound (Z.of_N (tape (rand w) (cursor (rand w))))
                (9999 - 1000 + 1) eq_refl).
  lia.
Qed.

Lemma random_uniform_run (a b : pyfloat) (w : world) :
  random_uniform a b w
  = (inr (fadd a (fmul (fsub b a) (Fin (unit_draw w)))), tick w).
Proof. reflexivity. Qed.


(** *** The frame of every computation of the extensions *)

Section Frame.
Variable P : gradient -> Prop.

Lemma appends_ret {A} (a : A) : appends_defs P (ret a).
Proof.
  intros w r w' H. inversion H; subst.
  repeat split; auto. exists []. rewrite app_nil_r. auto.
Qed.

Lemma appends_raise {A} (e : exn) : appends_defs P (@raise world A e).
Proof.
  intros w r w' H. inversion H; subst.
  repeat split; auto. exists []. rewrite app_nil_r. auto.
Qed.

Lemma appends_bind {A B} (m : M world A) (k : A -> M world B) :
  appends_defs P m -> (forall a, appends_defs P (k a)) ->
  appends_defs P (bind m k).
Proof.
  intros Hm Hk w r w' H. unfold bind in H.
  destruct (m w) as [[e | a] w1] eqn:E.
  - inversion H; subst. exact (Hm _ _ _ E).
  - destruct (Hm _ _ _ E) as (T1 & L1 & n1 & D1 & F1).
    destruct (Hk a _ _ _ H) as (T2 & L2 & n2 & D2 & F2).
    repeat split; try congruence.
    exists (n1 ++ n2)%list. split.
    + rewrite D2, D1, app_assoc. reflexivity.
    + apply Forall_app; auto.
Qed.

Lemma appends_for_range {A} (body : Z -> A -> M world A) :
  (forall i acc, appends_defs P (body i acc)) ->
  forall n start acc, appends_defs P (for_range n start body acc).
Proof.
  intros Hb. induction n as [| n IH]; intros start acc; simpl.
  - apply appends_ret.
  - apply appends_bind; [apply Hb | intro a; apply IH].
Qed.

Lemma appends_random_uniform (a b : pyfloat) :
  appends_defs P (random_uniform a b).
Proof.
  intros w r w' H. rewrite random_uniform_run in H. inversion H; subst.
  repeat split; auto. exists []. rewrite app_nil_r. auto.
Qed.

Lemma appends_random_randint (a b : Z) :
  appends_defs P (random_randint a b).
Proof.
  intros w r w' H. inversion H; subst.
  repeat split; auto. exists []. rewrite app_nil_r. auto.
Qed.

Lemma appends_math_cos (x : pyfloat) : appends_defs P (math_cos x).
Proof. destruct x; simpl; auto using @appends_ret, @appends_raise. Qed.

Lemma appends_math_sin (x : pyfloat) : appends_defs P (math_sin x).
Proof. destruct x; simpl; auto using @appends_ret, @appends_raise. Qed.
End Frame.

Ltac frame :=
  repeat (cbv beta zeta;
    lazymatch goal with
    | |- appends_defs _ (bind _ _) => apply appends_bind; [| intro]
    | |- appends_defs _ (ret _) => apply appends_ret
    | |- appends_defs _ (random_uniform _ _) => apply appends_random_uniform
    | |- appends_defs _ (random_randint _ _) => apply appends_random_randint
    | |- appends_defs _ (math_cos _) => apply appends_math_cos
    | |- appends_defs _ (math_sin _) => apply appends_math_sin
    end).

Lemma sweat_shadow_gradient_run (o : SweatDrop.options) (w : world) :
  SweatDrop.create_shadow_gradient o w
  = (inr ("shadowGradient_" ++ str_int (id_draw w))%string,
     mkWorld (rand (tick w))
       (defs w ++
          [mkGradient LinearGradient
             [("id", Text ("shadowGradient_" ++ str_int (id_draw w)))]
             (spec_shadow_stops (SweatDrop.shadow_opacity o))])%list
       (layer w)).
Proof. reflexivity. Qed.

Lemma sweat_drop_gradient_run (w : world) :
  SweatDrop.create_drop_gradient w
  = (inr ("dropGradient_" ++ str_int (id_draw w))%string,
     mkWorld (rand (tick w))
       (defs w ++
          [mkGradient RadialGradient
             [("id", Text ("dropGradient_" ++ str_int (id_draw w)));
              ("cx", Text "0.3"); ("cy", Text "0.3"); ("r", Text "0.7")]
             spec_body_stops])%list
       (layer w)).
Proof. reflexivity. Qed.

Lemma tear_shadow_gradient_run (o : Teardrop.options) (w : world) :
  Teardrop.create_shadow_gradient o w
  = (inr ("shadowGradient_" ++ str_int (id_draw w))%string,
     mkWorld (rand (tick w))
       (defs w ++
          [mkGradient LinearGradient
             [("id", Text ("shadowGradient_" ++ str_int (id_draw w)))]
             (spec_shadow_stops (Teardrop.shadow_opacity o))])%list
       (layer w)).
Proof. reflexivity. Qed.

Lemma tear_drop_gradient_run (w : world) :
  Teardrop.create_drop_gradient w
  = (inr ("dropGradient_" ++ str_int (id_draw w))%string,
     mkWorld (rand (tick w))
       (defs w ++
          [mkGradient RadialGradient
             [("id", Text ("dropGradient_" ++ str_int (id_draw w)));
              ("cx", Text "0.3"); ("cy", Text "0.3"); ("r", Text "0.7")]
             spec_body_stops])%list
       (layer w)).
Proof. reflexivity. Qed.

Lemma id_draw_shadow (opacity : pyfloat) (w : world) :
  recipe_gradient opacity
    (mkGradient LinearGradient
       [("id", Text ("shadowGradient_" ++ str_int (id_draw w)))]
       (spec_shadow_stops opacity)).
Proof.
  left. repeat split. exists (id_draw w). split; [apply id_draw_range | reflexivity].
Qed.

Lemma id_draw_body (opacity : pyfloat) (w : world) :
  recipe_gradient opacity
    (mkGradient RadialGradient
       [("id", Text ("dropGradient_" ++ str_int (id_draw w)));
        ("cx", Text "0.3"); ("cy", Text "0.3"); ("r", Text "0.7")]
       spec_body_stops).
Proof.
  right. repeat split. exists (id_draw w). split; [apply id_draw_range | reflexivity].
Qed.

Ltac one_gradient run_lemma fact :=
  let w := fresh "w" in
  let r := fresh "r" in
  let w' := fresh "w'" in
  let H := fresh "H" in
  intros w r w' H; rewrite run_lemma in H; inversion H; subst; simpl;
  repeat split; auto;
  eexists; split; [reflexivity | constructor; [apply fact | constructor]].

Section SweatFrame.
Variable o : SweatDrop.options.
Let P := recipe_gradient (SweatDrop.shadow_opacity o).

Lemma sweat_shadow_gradient_frame :
  appends_defs P (SweatDrop.create_shadow_gradient o).
Proof. one_gradient sweat_shadow_gradient_run id_draw_shadow. Qed.

Lemma sweat_drop_gradient_frame :
  appends_defs P SweatDrop.create_drop_gradient.
Proof. one_gradient sweat_drop_gradient_run id_draw_body. Qed.

Lemma sweat_create_shadow_frame x y size :
  appends_defs P (SweatDrop.create_shadow o x y size).
Proof.
  unfold SweatDrop.create_shadow. frame. apply sweat_shadow_gradient_frame.
Qed.

Lemma sweat_create_main_drop_frame x y size :
  appends_defs P (SweatDrop.create_main_drop o x y size).
Proof.
  unfold SweatDrop.create_main_drop. frame. apply sweat_drop_gradient_frame.
Qed.

Lemma sweat_create_highlight_frame x y size :
  appends_defs P (SweatDrop.create_highlight o x y size).
Proof. unfold SweatDrop.create_highlight. frame. Qed.

Lemma sweat_build_drop_group_frame index x y size :
  appends_defs P (SweatDrop.build_drop_group o index x y size).
Proof.
  unfold SweatDrop.build_drop_group.
  apply appends_bind; [apply sweat_create_shadow_frame | intro].
  apply appends_bind; [apply sweat_create_main_drop_frame | intro].
  apply appends_bind; [apply sweat_create_highlight_frame | intro].
  apply appends_ret.
Qed.

Lemma sweat_create_single_drop_frame index base sv :
  appends_defs P (SweatDrop.create_single_drop o index base sv).
Proof.
  unfold SweatDrop.create_single_drop. frame.
  apply sweat_build_drop_group_frame.
Qed.
End SweatFrame.

Section TearFrame.
Variable o : Teardrop.options.
Let P := recipe_gradient (Teardrop.shadow_opacity o).

Lemma tear_shadow_gradient_frame :
  appends_defs P (Teardrop.create_shadow_gradient o).
Proof. one_gradient tear_shadow_gradient_run id_draw_shadow. Qed.

Lemma tear_drop_gradient_frame :
  appends_defs P Teardrop.create_drop_gradient.
Proof. one_gradient tear_drop_gradient_run id_draw_body. Qed.

Lemma tear_create_shadow_frame x y size rot :
  appends_defs P (Teardrop.create_teardrop_shadow o x y size rot).
Proof.
  unfold Teardrop.create_teardrop_shadow. frame.
  apply tear_shadow_gradient_frame.
Qed.

Lemma tear_create_main_frame x y size rot :
  appends_defs P (Teardrop.create_teardrop_main o x y size rot).
Proof.
  unfold Teardrop.create_teardrop_main. frame.
  apply tear_drop_gradient_frame.
Qed.

Lemma tear_create_highlight_frame x y size rot :
  appends_defs P (Teardrop.create_teardrop_highlight o x y size rot).
Proof. unfold Teardrop.create_teardrop_highlight. frame. Qed.

Lemma tear_build_drop_group_frame index x y size rot :
  appends_defs P (Teardrop.build_drop_group o index x y size rot).
Proof.
  unfold Teardrop.build_drop_group.
  apply appends_bind; [apply tear_create_shadow_frame | intro].
  apply appends_bind; [apply tear_create_main_frame | intro].
  apply appends_bind; [apply tear_create_highlight_frame | intro].
  apply appends_ret.
Qed.

Lemma tear_create_single_teardrop_frame index base sv :
  appends_defs P (Teardrop.create_single_teardrop o index base sv).
Proof.
  unfold Teardrop.create_single_teardrop. frame.
  apply tear_build_drop_group_frame.
Qed.
End TearFrame.

(** *** Runs that return *)

Lemma bind_inr {A B} (m : M world A) (k : A -> M world B) w b w' :
  bind m k w = (inr b, w') ->
  exists a w1, m w = (inr a, w1) /\ k a w1 = (inr b, w').
Proof.
  unfold bind. destruct (m w) as [[e | a] w1]; intro H.
  - discriminate.
  - exists a, w1. auto.
Qed.

Lemma bind_run {A B} (m : M world A) (k : A -> M world B) w a w1 :
  m w = (inr a, w1) -> bind m k w = k a w1.
Proof. unfold bind. intros ->. reflexivity. Qed.

Lemma bind_raise {A B} (m : M world A) (k : A -> M world B) w e w1 :
  m w = (inl e, w1) -> bind m k w = (inl e, w1).
Proof. unfold bind. intros ->. reflexivity. Qed.

(** The loop of [effect] over a drop constructor that always returns. *)
Lemma for_range_collect {A} (create : Z -> M world A) (Q : Z -> A -> Prop) :
  (forall i w, exists g w', create i w = (inr g, w') /\ Q i g) ->
  forall n start (acc : group A) w,
  exists gs w',
    for_range n start
      (fun i main_group => g <- create i ;; ret (add main_group g)) acc w
    = (inr (mkGroup (label acc) (children acc ++ gs)), w') /\
    List.length gs = n /\
    forall k g, nth_error gs k = Some g -> Q (start + Z.of_nat k)%Z g.
Proof.
  intros Hc. induction n as [| n IH]; intros start acc w.
  - exists [], w. simpl. rewrite app_nil_r. destruct acc.
    repeat split. intros [| k] g H; discriminate.
  - destruct (Hc start w) as (g0 & w0 & E0 & Q0).
    destruct (IH (start + 1)%Z (add acc g0) w0) as (gs & w' & E & L & Hn).
    exists (g0 :: gs), w'. repeat split.
    + assert (E1 : (g <- create start ;; ret (add acc g)) w
                   = (inr (add acc g0), w0))
        by (rewrite (bind_run _ _ _ _ _ E0); reflexivity).
      cbn [for_range]. rewrite (bind_run _ _ _ _ _ E1), E. simpl.
      rewrite <- app_assoc. reflexivity.
    + simpl. congruence.
    + intros [| k] g H.
      * simpl in H. inversion H; subst. rewrite Z.add_0_r. exact Q0.
      * simpl in H. apply Hn in H.
        replace (start + Z.of_nat (S k))%Z with (start + 1 + Z.of_nat k)%Z
          by lia.
        exact H.
Qed.

Section SweatRuns.
Variable o : SweatDrop.options.
Variables a h : R.
Hypothesis shadow_finite : SweatDrop.shadow_angle o = Fin a.
Hypothesis highlight_finite : SweatDrop.highlight_angle o = Fin h.

Lemma sweat_create_shadow_run x y size w :
  SweatDrop.create_shadow o x y size w
  = (inr (mkShape Ellipse
            [("cx", Num (fadd x (fmul (Fin (cos (a * (PI / 180))))
                                      (SweatDrop.shadow_distance o))));
             ("cy", Num (fadd y (fmul (Fin (sin (a * (PI / 180))))
                                      (SweatDrop.shadow_distance o))));
             ("rx", Num (fmul size (Fin (6 / 10))));
             ("ry", Num (fmul size (Fin (8 / 10))))]
            [("fill", Text ("url(#" ++ "shadowGradient_"
                              ++ str_int (id_draw w) ++ ")"));
             ("stroke", Text "none");
             ("mix-blend-mode", Text (SweatDrop.blend_mode o))]
            None),
     snd (SweatDrop.create_shadow_gradient o w)).
Proof.
  unfold SweatDrop.create_shadow. rewrite shadow_finite. reflexivity.
Qed.

Lemma sweat_create_main_drop_run x y size w :
  SweatDrop.create_main_drop o x y size w
  = (inr (mkShape Ellipse
            [("cx", Num x); ("cy", Num y);
             ("rx", Num (fmul size (Fin (6 / 10))));
             ("ry", Num (fmul size (Fin (8 / 10))))]
            [("fill", Text ("url(#" ++ "dropGradient_"
                              ++ str_int (id_draw w) ++ ")"));
             ("stroke", Text "none");
             ("mix-blend-mode", Text (SweatDrop.blend_mode o));
             ("opacity", Text "1")]
            None),
     snd (SweatDrop.create_drop_gradient w)).
Proof. reflexivity. Qed.

Lemma sweat_create_highlight_run x y size w :
  SweatDrop.create_highlight o x y size w
  = (inr (mkShape Ellipse
            [("cx", Num (fadd x (fmul (Fin (cos (h * (PI / 180))))
                                      (fmul size (Fin (3 / 10))))));
             ("cy", Num (fadd y (fmul (Fin (sin (h * (PI / 180))))
                                      (fmul size (Fin (3 / 10))))));
             ("rx", Num (fmul (fmul size (SweatDrop.highlight_size o))
                              (Fin (4 / 10))));
             ("ry", Num (fmul (fmul size (SweatDrop.highlight_size o))
                              (Fin (6 / 10))))]
            [("fill", Text "#ffffff");
             ("fill-opacity", Num (SweatDrop.highlight_opacity o));
             ("stroke", Text "none");
             ("mix-blend-mode", Text (SweatDrop.blend_mode o))]
            None),
     w).
Proof.
  unfold SweatDrop.create_highlight. rewrite highlight_finite. reflexivity.
Qed.

Lemma sweat_build_drop_group_run index x y size w :
  exists shadow body highlight w1 w2,
    SweatDrop.create_shadow o x y size w = (inr shadow, w1) /\
    SweatDrop.create_main_drop o x y size w1 = (inr body, w2) /\
    SweatDrop.create_highlight o x y size w2 = (inr highlight, w2) /\
    SweatDrop.build_drop_group o index x y size w
    = (inr (mkGroup ("Drop_" ++ str_int (index + 1))%string
              [shadow; body; highlight]), w2).
Proof.
  do 5 eexists.
  split; [apply sweat_create_shadow_run |].
  split; [apply sweat_create_main_drop_run |].
  split; [apply sweat_create_highlight_run |].
  unfold SweatDrop.build_drop_group.
  rewrite (bind_run _ _ _ _ _ (sweat_create_shadow_run x y size w)).
  rewrite (bind_run _ _ _ _ _ (sweat_create_main_drop_run x y size _)).
  rewrite (bind_run _ _ _ _ _ (sweat_create_highlight_run x y size _)).
  reflexivity.
Qed.

Lemma sweat_create_single_drop_returns index base sv w :
  exists g w',
    SweatDrop.create_single_drop o index base sv w = (inr g, w') /\
    label g = ("Drop_" ++ str_int (index + 1))%string /\
    List.length (children g) = 3%nat.
Proof.
  unfold SweatDrop.create_single_drop.
  rewrite (bind_run _ _ _ _ _ (random_uniform_run _ _ _)).
  rewrite (bind_run _ _ _ _ _ (random_uniform_run _ _ _)).
  rewrite (bind_run _ _ _ _ _ (random_uniform_run _ _ _)).
  cbv zeta.
  match goal with
  | |- context [SweatDrop.build_drop_group o index ?x ?y ?s ?w0] =>
      destruct (sweat_build_drop_group_run index x y s w0)
        as (sh & bo & hl & w1 & w2 & _ & _ & _ & E)
  end.
  rewrite E. do 2 eexists. split; [reflexivity |]. split; reflexivity.
Qed.
End SweatRuns.

Section TearRuns.
Variable o : Teardrop.options.
Variables a h : R.
Hypothesis shadow_finite : Teardrop.shadow_angle o = Fin a.
Hypothesis highlight_finite : Teardrop.highlight_angle o = Fin h.

Lemma tear_create_shadow_run x y size rot w :
  let shadow_x :=
    fadd x (fmul (Fin (cos (a * (PI / 180)))) (Teardrop.shadow_distance o)) in
  let shadow_y :=
    fadd y (fmul (Fin (sin (a * (PI / 180)))) (Teardrop.shadow_distance o)) in
  Teardrop.create_teardrop_shadow o x y size rot w
  = (inr (mkShape PathElement
            [("d", PathData
                     (Teardrop.create_teardrop_path o shadow_x shadow_y
                        size rot))]
            [("fill", Text ("url(#" ++ "shadowGradient_"
                              ++ str_int (id_draw w) ++ ")"));
             ("stroke", Text "none");
             ("mix-blend-mode", Text (Teardrop.blend_mode o))]
            (Teardrop.rotate_about rot shadow_x shadow_y)),
     snd (Teardrop.create_shadow_gradient o w)).
Proof.
  unfold Teardrop.create_teardrop_shadow. rewrite shadow_finite.
  reflexivity.
Qed.

Lemma tear_create_main_run x y size rot w :
  Teardrop.create_teardrop_main o x y size rot w
  = (inr (mkShape PathElement
            [("d", PathData (Teardrop.create_teardrop_path o x y size rot))]
            [("fill", Text ("url(#" ++ "dropGradient_"
                              ++ str_int (id_draw w) ++ ")"));
             ("stroke", Text "none");
             ("mix-blend-mode", Text (Teardrop.blend_mode o));
             ("opacity", Text "1")]
            (Teardrop.rotate_about rot x y)),
     snd (Teardrop.create_drop_gradient w)).
Proof. reflexivity. Qed.

Lemma tear_create_highlight_run x y size rot w :
  let highlight_x :=
    fadd x (fmul (Fin (cos (h * (PI / 180)))) (fmul size (Fin (2 / 10)))) in
  let highlight_y :=
    fadd y (fmul (Fin (sin (h * (PI / 180)))) (fmul size (Fin (2 / 10)))) in
  Teardrop.create_teardrop_highlight o x y size rot w
  = (inr (mkShape PathElement
            [("d", PathData
                     (Teardrop.create_teardrop_path o highlight_x
                        highlight_y
                        (fmul size (Teardrop.highlight_size o)) rot))]
            [("fill", Text "#ffffff");
             ("fill-opacity", Num (Teardrop.highlight_opacity o));
             ("stroke", Text "none");
             ("mix-blend-mode", Text (Teardrop.blend_mode o))]
            (Teardrop.rotate_about rot highlight_x highlight_y)),
     w).
Proof.
  unfold Teardrop.create_teardrop_highlight. rewrite highlight_finite.
  reflexivity.
Qed.

Lemma tear_build_drop_group_run index x y size rot w :
  exists shadow body highlight w1 w2,
    Teardrop.create_teardrop_shadow o x y size rot w = (inr shadow, w1) /\
    Teardrop.create_teardrop_main o x y size rot w1 = (inr body, w2) /\
    Teardrop.create_teardrop_highlight o x y size rot w2
    = (inr highlight, w2) /\
    Teardrop.build_drop_group o index x y size rot w
    = (inr (mkGroup ("Teardrop_" ++ str_int (index + 1))%string
              [shadow; body; highlight]), w2).
Proof.
  do 5 eexists.
  split; [apply tear_create_shadow_run |].
  split; [apply tear_create_main_run |].
  split; [apply tear_create_highlight_run |].
  unfold Teardrop.build_drop_group.
  rewrite (bind_run _ _ _ _ _ (tear_create_shadow_run x y size rot w)).
  rewrite (bind_run _ _ _ _ _ (tear_create_main_run x y size rot _)).
  rewrite (bind_run _ _ _ _ _ (tear_create_highlight_run x y size rot _)).
  reflexivity.
Qed.

Lemma tear_create_single_teardrop_returns index base sv w :
  exists g w',
    Teardrop.create_single_teardrop o index base sv w = (inr g, w') /\
    label g = ("Teardrop_" ++ str_int (index + 1))%string /\
    List.length (children g) = 3%nat.
Proof.
  unfold Teardrop.create_single_teardrop.
  do 4 rewrite (bind_run _ _ _ _ _ (random_uniform_run _ _ _)).
  cbv zeta.
  match goal with
  | |- context [Teardrop.build_drop_group o index ?x ?y ?s ?r ?w0] =>
      destruct (tear_build_drop_group_run index x y s r w0)
        as (sh & bo & hl & w1 & w2 & _ & _ & _ & E)
  end.
  rewrite E. do 2 eexists. split; [reflexivity |]. split; reflexivity.
Qed.
End TearRuns.

(** ** The properties of the generators *)

Lemma finite_inv (x : pyfloat) : is_finite x -> exists r, x = Fin r.
Proof. destruct x; simpl; intro H; [eexists; reflexivity | tauto | tauto]. Qed.

Lemma sweat_effect_drops (o : SweatDrop.options) (w : world) :
  (exists a, SweatDrop.shadow_angle o = Fin a) ->
  (exists h, SweatDrop.highlight_angle o = Fin h) ->
  exists drops w',
    SweatDrop.effect_body o w = (inr tt, w') /\
    layer w' = layer w ++ [mkGroup "Sweat Drops" drops] /\
    List.length drops = Z.to_nat (SweatDrop.drop_count o) /\
    forall k g, nth_error drops k = Some g ->
      label g = ("Drop_" ++ str_int (Z.of_nat k + 1))%string /\
      exists wk wk',
        SweatDrop.create_single_drop o (Z.of_nat k)
          (SweatDrop.drop_size o) (SweatDrop.size_variation o) wk
        = (inr g, wk').
Proof.
  intros [a Ha] [h Hh].
  destruct (for_range_collect
              (fun i => SweatDrop.create_single_drop o i
                          (SweatDrop.drop_size o) (SweatDrop.size_variation o))
              (fun i g =>
                 label g = ("Drop_" ++ str_int (i + 1))%string /\
                 exists wk wk',
                   SweatDrop.create_single_drop o i
                     (SweatDrop.drop_size o) (SweatDrop.size_variation o) wk
                   = (inr g, wk'))) with
    (n := Z.to_nat (SweatDrop.drop_count o)) (start := 0%Z)
    (acc := @mkGroup (group shape) "Sweat Drops" []) (w := w)
    as (gs & w1 & E & L & Hn).
  - intros i w0.
    destruct (sweat_create_single_drop_returns o a h Ha Hh i
                (SweatDrop.drop_size o) (SweatDrop.size_variation o) w0)
      as (g & w' & E & Lb & _).
    exists g, w'. repeat split; eauto.
  - exists gs, (mkWorld (rand w1) (defs w1) (layer w1 ++ [mkGroup "Sweat Drops" gs])).
    split; [| split; [| split]].
    + unfold SweatDrop.effect_body. cbv zeta.
      rewrite (bind_run _ _ _ _ _ E). reflexivity.
    + simpl. f_equal.
      pose proof (appends_for_range (recipe_gradient (SweatDrop.shadow_opacity o))
                    (fun i main_group =>
                       g <- SweatDrop.create_single_drop o i
                              (SweatDrop.drop_size o)
                              (SweatDrop.size_variation o) ;;
                       ret (add main_group g))) as F.
      eapply F in E; [tauto |].
      intros i acc. apply appends_bind;
        [apply sweat_create_single_drop_frame | intro; apply appends_ret].
    + exact L.
    + intros k g H. apply Hn in H. exact H.
Qed.

Lemma tear_effect_drops (o : Teardrop.options) (w : world) :
  (exists a, Teardrop.shadow_angle o = Fin a) ->
  (exists h, Teardrop.highlight_angle o = Fin h) ->
  exists drops w',
    Teardrop.effect_body o w = (inr tt, w') /\
    layer w' = layer w ++ [mkGroup "Teardrop Sweat Drops" drops] /\
    List.length drops = Z.to_nat (Teardrop.drop_count o) /\
    forall k g, nth_error drops k = Some g ->
      label g = ("Teardrop_" ++ str_int (Z.of_nat k + 1))%string /\
      exists wk wk',
        Teardrop.create_single_teardrop o (Z.of_nat k)
          (Teardrop.drop_size o) (Teardrop.size_variation o) wk
        = (inr g, wk').
Proof.
  intros [a Ha] [h Hh].
  destruct (for_range_collect
              (fun i => Teardrop.create_single_teardrop o i
                          (Teardrop.drop_size o) (Teardrop.size_variation o))
              (fun i g =>
                 label g = ("Teardrop_" ++ str_int (i + 1))%string /\
                 exists wk wk',
                   Teardrop.create_single_teardrop o i
                     (Teardrop.drop_size o) (Teardrop.size_variation o) wk
                   = (inr g, wk'))) with
    (n := Z.to_nat (Teardrop.drop_count o)) (start := 0%Z)
    (acc := @mkGroup (group shape) "Teardrop Sweat Drops" []) (w := w)
    as (gs & w1 & E & L & Hn).
  - intros i w0.
    destruct (tear_create_single_teardrop_returns o a h Ha Hh i
                (Teardrop.drop_size o) (Teardrop.size_variation o) w0)
      as (g & w' & E & Lb & _).
    exists g, w'. repeat split; eauto.
  - exists gs,
      (mkWorld (rand w1) (defs w1)
         (layer w1 ++ [mkGroup "Teardrop Sweat Drops" gs])).
    split; [| split; [| split]].
    + unfold Teardrop.effect_body. cbv zeta.
      rewrite (bind_run _ _ _ _ _ E). reflexivity.
    + simpl. f_equal.
      pose proof (appends_for_range (recipe_gradient (Teardrop.shadow_opacity o))
                    (fun i main_group =>
                       g <- Teardrop.create_single_teardrop o i
                              (Teardrop.drop_size o)
                              (Teardrop.size_variation o) ;;
                       ret (add main_group g))) as F.
      eapply F in E; [tauto |].
      intros i acc. apply appends_bind;
        [apply tear_create_single_teardrop_frame | intro; apply appends_ret].
    + exact L.
    + intros k g H. apply Hn in H. exact H.
Qed.

Lemma try_except_pass_returns (m : M world unit) (w w' : world) :
  m w = (inr tt, w') -> try_except_pass m w = (inr tt, w').
Proof. unfold try_except_pass. intros ->. reflexivity. Qed.

(** C1. For valid options of either variant, a run of [effect] adds one
    main group to the layer with exactly [drop_count] drop groups; the
    [k]-th of them, counting from 0, is the group that the drop
    constructor returns for index [k] and is labelled with [k + 1]. *)
Theorem C1_drop_count :
  (forall o w, valid_sweat_options o ->
     exists drops w',
       SweatDrop.effect o w = (inr tt, w') /\
       layer w' = layer w ++ [mkGroup "Sweat Drops" drops] /\
       List.length drops = Z.to_nat (SweatDrop.drop_count o) /\
       forall k g, nth_error drops k = Some g ->
         label g = ("Drop_" ++ str_int (Z.of_nat k + 1))%string /\
         exists wk wk',
           SweatDrop.create_single_drop o (Z.of_nat k)
             (SweatDrop.drop_size o) (SweatDrop.size_variation o) wk
           = (inr g, wk')) /\
  (forall o w, valid_teardrop_options o ->
     exists drops w',
       Teardrop.effect o w = (inr tt, w') /\
       layer w' = layer w ++ [mkGroup "Teardrop Sweat Drops" drops] /\
       List.length drops = Z.to_nat (Teardrop.drop_count o) /\
       forall k g, nth_error drops k = Some g ->
         label g = ("Teardrop_" ++ str_int (Z.of_nat k + 1))%string /\
         exists wk wk',
           Teardrop.create_single_teardrop o (Z.of_nat k)
             (Teardrop.drop_size o) (Teardrop.size_variation o) wk
           = (inr g, wk')).
Proof.
  split; intros o w V.
  - destruct (sweat_effect_drops o w) as (drops & w' & E & H).
    + apply finite_inv, V.
    + apply finite_inv, V.
    + exists drops, w'. split; [| exact H].
      apply try_except_pass_returns, E.
  - destruct (tear_effect_drops o w) as (drops & w' & E & H).
    + apply finite_inv, V.
    + apply finite_inv, V.
    + exists drops, w'. split; [| exact H].
      apply try_except_pass_returns, E.
Qed.

(** The three draws of [create_single_drop], in the order of the code. *)
Lemma sweat_create_single_drop_run o index base sv w :
  SweatDrop.create_single_drop o index base sv w
  = SweatDrop.build_drop_group o index
      (fadd (Fin 0)
         (fmul (fsub (SweatDrop.area_width o) (Fin 0))
            (Fin (unit_draw (tick w)))))
      (fadd (Fin 0)
         (fmul (fsub (SweatDrop.area_height o) (Fin 0))
            (Fin (unit_draw (tick (tick w))))))
      (fmul base
         (fadd (Fin 1)
            (fadd (fneg sv) (fmul (fsub sv (fneg sv)) (Fin (unit_draw w))))))
      (tick (tick (tick w))).
Proof. reflexivity. Qed.

(** The four draws of [create_single_teardrop]. *)
Lemma tear_create_single_teardrop_run o index base sv w :
  Teardrop.create_single_teardrop o index base sv w
  = Teardrop.build_drop_group o index
      (fadd (Fin 0)
         (fmul (fsub (Teardrop.area_width o) (Fin 0))
            (Fin (unit_draw (tick w)))))
      (fadd (Fin 0)
         (fmul (fsub (Teardrop.area_height o) (Fin 0))
            (Fin (unit_draw (tick (tick w))))))
      (fmul base
         (fadd (Fin 1)
            (fadd (fneg sv) (fmul (fsub sv (fneg sv)) (Fin (unit_draw w))))))
      (fadd (fneg (Teardrop.rotation_variation o))
         (fmul (fsub (Teardrop.rotation_variation o)
                  (fneg (Teardrop.rotation_variation o)))
            (Fin (unit_draw (tick (tick (tick w)))))))
      (tick (tick (tick (tick w)))).
Proof. reflexivity. Qed.

Lemma jitter_range (v r : R) :
  0 <= v -> 0 <= r < 1 ->
  - v <= - v + (v - - v) * r <= v.
Proof. intros Hv [H0 H1]. split; nra. Qed.

Lemma size_range (b v u : R) :
  0 <= b -> - v <= u <= v ->
  b * (1 - v) <= b * (1 + u) <= b * (1 + v).
Proof. intros Hb [H0 H1]. split; nra. Qed.

Lemma unit_draw_empty_world : unit_draw (empty_world 0) = 0.
Proof.
  unfold unit_draw, empty_world, constant_rng, unit_of_raw. simpl.
  unfold Rdiv. apply Rmult_0_l.
Qed.

(** C2. In both variants the size of a drop is [base_size * (1 + u)],
    where [u = -v + (v - -v) * r] is the value [random.uniform] draws
    for a size variation [v]; for [v >= 0] it lies in [[-v, v]], and for
    a base size that is not negative the size lies in
    [[base_size * (1 - v), base_size * (1 + v)]]. Nothing clamps the
    size: for [v >= 1] there is a draw that makes it zero or negative. *)
Theorem C2_resolved_size :
  (forall o index b v w,
     exists u x y w',
       u = - v + (v - - v) * unit_draw w /\
       SweatDrop.create_single_drop o index (Fin b) (Fin v) w
       = SweatDrop.build_drop_group o index x y (Fin (b * (1 + u))) w' /\
       (0 <= v -> - v <= u <= v) /\
       (0 <= v -> 0 <= b ->
        b * (1 - v) <= b * (1 + u) <= b * (1 + v))) /\
  (forall o index b v w,
     exists u x y rotation w',
       u = - v + (v - - v) * unit_draw w /\
       Teardrop.create_single_teardrop o index (Fin b) (Fin v) w
       = Teardrop.build_drop_group o index x y (Fin (b * (1 + u)))
           rotation w' /\
       (0 <= v -> - v <= u <= v) /\
       (0 <= v -> 0 <= b ->
        b * (1 - v) <= b * (1 + u) <= b * (1 + v))) /\
  (forall o index b v, 0 < b -> 1 <= v ->
     exists w x y w' size,
       SweatDrop.create_single_drop o index (Fin b) (Fin v) w
       = SweatDrop.build_drop_group o index x y (Fin size) w' /\
       size <= 0) /\
  (forall o index b v, 0 < b -> 1 <= v ->
     exists w x y rotation w' size,
       Teardrop.create_single_teardrop o index (Fin b) (Fin v) w
       = Teardrop.build_drop_group o index x y (Fin size) rotation w' /\
       size <= 0).
Proof.
  split; [| split; [| split]].
  - intros o index b v w.
    exists (- v + (v - - v) * unit_draw w). do 3 eexists.
    split; [reflexivity |]. split.
    + rewrite sweat_create_single_drop_run. reflexivity.
    + pose proof (unit_draw_range w) as Hr. split.
      * intro Hv. apply jitter_range; assumption.
      * intros Hv Hb. apply size_range; [| apply jitter_range]; assumption.
  - intros o index b v w.
    exists (- v + (v - - v) * unit_draw w). do 4 eexists.
    split; [reflexivity |]. split.
    + rewrite tear_create_single_teardrop_run. reflexivity.
    + pose proof (unit_draw_range w) as Hr. split.
      * intro Hv. apply jitter_range; assumption.
      * intros Hv Hb. apply size_range; [| apply jitter_range]; assumption.
  - intros o index b v Hb Hv. exists (empty_world 0). do 4 eexists. split.
    + rewrite sweat_create_single_drop_run. reflexivity.
    + rewrite unit_draw_empty_world. nra.
  - intros o index b v Hb Hv. exists (empty_world 0). do 5 eexists. split.
    + rewrite tear_create_single_teardrop_run. reflexivity.
    + rewrite unit_draw_empty_world. nra.
Qed.

Lemma uniform_from_zero (W r : R) :
  0 <= W -> 0 <= r < 1 ->
  0 <= 0 + (W + - 0) * r <= W.
Proof. intros HW [H0 H1]. split; nra. Qed.

(** C3, the claim as it is written fails: with [area_width = 0] a drop is
    generated, the centre of its body is [x = 0], and no [x] satisfies
    [0 <= x < 0]. *)
Lemma C3_counterexample :
  SweatDrop.area_width example_options = Fin 0 /\
  exists g w' shadow body highlight x,
    SweatDrop.create_single_drop example_options 0
      (SweatDrop.drop_size example_options)
      (SweatDrop.size_variation example_options) (empty_world 0)
    = (inr g, w') /\
    children g = [shadow; body; highlight] /\
    get "cx" (attrib body) = Some (Num (Fin x)) /\
    x = 0 /\
    ~ (0 <= x < 0).
Proof.
  split; [reflexivity |].
  rewrite sweat_create_single_drop_run.
  match goal with
  | |- context [SweatDrop.build_drop_group _ _ ?x ?y ?s ?w0] =>
      destruct (sweat_build_drop_group_run example_options 45 135
                  eq_refl eq_refl 0 x y s w0)
        as (sh & bo & hl & w1 & w2 & E1 & E2 & E3 & E)
  end.
  rewrite E.
  rewrite sweat_create_main_drop_run in E2. inversion E2 as [[Hb Hw]].
  do 5 eexists. exists (0 + (0 + - 0) * unit_draw (tick (empty_world 0))).
  split; [reflexivity |]. split; [reflexivity |].
  split; [reflexivity |]. split; [| intro]; lra.
Qed.

(** C3, amended. In both variants, for a finite [area_width = W >= 0] and
    [area_height = H >= 0] the centre of a drop satisfies [0 <= x <= W]
    and [0 <= y <= H]: it lies in the closed rectangle
    [[0, W] x [0, H]], and is 0 along a side of length 0. The upper
    bounds are not claimed to be strict: [random.uniform] may return its
    upper end. *)
Theorem C3_position_in_area :
  (forall o index base sv w W H,
     SweatDrop.area_width o = Fin W -> SweatDrop.area_height o = Fin H ->
     0 <= W -> 0 <= H ->
     exists x y size w',
       SweatDrop.create_single_drop o index base sv w
       = SweatDrop.build_drop_group o index (Fin x) (Fin y) size w' /\
       0 <= x <= W /\ 0 <= y <= H) /\
  (forall o index base sv w W H,
     Teardrop.area_width o = Fin W -> Teardrop.area_height o = Fin H ->
     0 <= W -> 0 <= H ->
     exists x y size rotation w',
       Teardrop.create_single_teardrop o index base sv w
       = Teardrop.build_drop_group o index (Fin x) (Fin y) size rotation w' /\
       0 <= x <= W /\ 0 <= y <= H).
Proof.
  split; intros o index base sv w W H EW EH HW HH.
  - exists (0 + (W + - 0) * unit_draw (tick w)),
           (0 + (H + - 0) * unit_draw (tick (tick w))).
    do 2 eexists. split.
    + rewrite sweat_create_single_drop_run, EW, EH. reflexivity.
    + pose proof (uniform_from_zero W _ HW (unit_draw_range (tick w))).
      pose proof (uniform_from_zero H _ HH (unit_draw_range (tick (tick w)))).
      tauto.
  - exists (0 + (W + - 0) * unit_draw (tick w)),
           (0 + (H + - 0) * unit_draw (tick (tick w))).
    do 3 eexists. split.
    + rewrite tear_create_single_teardrop_run, EW, EH. reflexivity.
    + pose proof (uniform_from_zero W _ HW (unit_draw_range (tick w))).
      pose proof (uniform_from_zero H _ HH (unit_draw_range (tick (tick w)))).
      tauto.
Qed.

Lemma math_cos_world (x c : pyfloat) (w w' : world) :
  math_cos x w = (inr c, w') -> w' = w.
Proof. destruct x; simpl; intro H; inversion H; reflexivity. Qed.

Lemma math_sin_world (x s : pyfloat) (w w' : world) :
  math_sin x w = (inr s, w') -> w' = w.
Proof. destruct x; simpl; intro H; inversion H; reflexivity. Qed.

(** The gradients of one ellipse drop and the shapes they fill. *)
Lemma sweat_drop_fills o index base sv w g w' :
  SweatDrop.create_single_drop o index base sv w = (inr g, w') ->
  exists shadow body highlight gs gb ids idb,
    children g = [shadow; body; highlight] /\
    defs w' = defs w ++ [gs; gb] /\
    fill_of shadow = Some (url ids) /\
    gradient_id gs = Some (Text ids) /\
    recipe_of gs
    = (LinearGradient, None, None, None,
       spec_shadow_stops (SweatDrop.shadow_opacity o)) /\
    fill_of body = Some (url idb) /\
    gradient_id gb = Some (Text idb) /\
    recipe_of gb
    = (RadialGradient, Some (Text "0.3"), Some (Text "0.3"),
       Some (Text "0.7"), spec_body_stops) /\
    fill_of highlight = Some (Text "#ffffff").
Proof.
  intros H. rewrite sweat_create_single_drop_run in H.
  unfold SweatDrop.build_drop_group in H. cbv zeta in H.
  apply bind_inr in H. destruct H as (sh & w1 & E1 & H).
  apply bind_inr in H. destruct H as (bo & w2 & E2 & H).
  apply bind_inr in H. destruct H as (hl & w3 & E3 & H).
  injection H as Hg Hw.
  unfold SweatDrop.create_shadow in E1. cbv zeta in E1.
  apply bind_inr in E1. destruct E1 as (c & u1 & C1 & E1).
  apply math_cos_world in C1. subst u1.
  apply bind_inr in E1. destruct E1 as (sn & u2 & C2 & E1).
  apply math_sin_world in C2. subst u2.
  apply bind_inr in E1. destruct E1 as (id1 & u3 & G1 & E1).
  rewrite sweat_shadow_gradient_run in G1.
  injection G1 as Hid1 Hu3. injection E1 as Hsh Hw1.
  unfold SweatDrop.create_main_drop in E2. cbv zeta in E2.
  apply bind_inr in E2. destruct E2 as (id2 & u4 & G2 & E2).
  rewrite sweat_drop_gradient_run in G2.
  injection G2 as Hid2 Hu4. injection E2 as Hbo Hw2.
  unfold SweatDrop.create_highlight in E3. cbv zeta in E3.
  apply bind_inr in E3. destruct E3 as (c3 & u5 & C3 & E3).
  apply math_cos_world in C3. subst u5.
  apply bind_inr in E3. destruct E3 as (s3 & u6 & C4 & E3).
  apply math_sin_world in C4. subst u6.
  injection E3 as Hhl Hw3.
  subst.
  do 7 eexists.
  split; [reflexivity |].
  split; [cbn [defs tick]; rewrite <- app_assoc; reflexivity |].
  repeat split.
Qed.

(** The gradients of one teardrop and the shapes they fill. *)
Lemma tear_drop_fills o index base sv w g w' :
  Teardrop.create_single_teardrop o index base sv w = (inr g, w') ->
  exists shadow body highlight gs gb ids idb,
    children g = [shadow; body; highlight] /\
    defs w' = defs w ++ [gs; gb] /\
    fill_of shadow = Some (url ids) /\
    gradient_id gs = Some (Text ids) /\
    recipe_of gs
    = (LinearGradient, None, None, None,
       spec_shadow_stops (Teardrop.shadow_opacity o)) /\
    fill_of body = Some (url idb) /\
    gradient_id gb = Some (Text idb) /\
    recipe_of gb
    = (RadialGradient, Some (Text "0.3"), Some (Text "0.3"),
       Some (Text "0.7"), spec_body_stops) /\
    fill_of highlight = Some (Text "#ffffff").
Proof.
  intros H. rewrite tear_create_single_teardrop_run in H.
  unfold Teardrop.build_drop_group in H. cbv zeta in H.
  apply bind_inr in H. destruct H as (sh & w1 & E1 & H).
  apply bind_inr in H. destruct H as (bo & w2 & E2 & H).
  apply bind_inr in H. destruct H as (hl & w3 & E3 & H).
  injection H as Hg Hw.
  unfold Teardrop.create_teardrop_shadow in E1. cbv zeta in E1.
  apply bind_inr in E1. destruct E1 as (c & u1 & C1 & E1).
  apply math_cos_world in C1. subst u1.
  apply bind_inr in E1. destruct E1 as (sn & u2 & C2 & E1).
  apply math_sin_world in C2. subst u2.
  apply bind_inr in E1. destruct E1 as (id1 & u3 & G1 & E1).
  rewrite tear_shadow_gradient_run in G1.
  injection G1 as Hid1 Hu3. injection E1 as Hsh Hw1.
  unfold Teardrop.create_teardrop_main in E2. cbv zeta in E2.
  apply bind_inr in E2. destruct E2 as (id2 & u4 & G2 & E2).
  rewrite tear_drop_gradient_run in G2.
  injection G2 as Hid2 Hu4. injection E2 as Hbo Hw2.
  unfold Teardrop.create_teardrop_highlight in E3. cbv zeta in E3.
  apply bind_inr in E3. destruct E3 as (c3 & u5 & C3 & E3).
  apply math_cos_world in C3. subst u5.
  apply bind_inr in E3. destruct E3 as (s3 & u6 & C4 & E3).
  apply math_sin_world in C4. subst u6.
  injection E3 as Hhl Hw3.
  subst.
  do 7 eexists.
  split; [reflexivity |].
  split; [cbn [defs tick]; rewrite <- app_assoc; reflexivity |].
  repeat split.
Qed.

Lemma skipn_app_length {A} (l new : list A) :
  skipn (List.length l) (l ++ new) = new.
Proof. induction l as [| x l IH]; simpl; auto. Qed.

Lemma effect_body_defs {A} (P : gradient -> Prop)
    (loop : M world A) (k : A -> group (group shape)) (w : world) :
  appends_defs P loop ->
  exists new,
    defs (snd (try_except_pass (a <- loop ;; layer_add (k a)) w))
    = defs w ++ new /\ Forall P new.
Proof.
  intros F. unfold try_except_pass, bind.
  destruct (loop w) as [[e | a] w1] eqn:E;
    destruct (F _ _ _ E) as (_ & _ & new & D & HP); exists new; simpl; auto.
Qed.

Lemma added_defs_effect {A} (P : gradient -> Prop)
    (loop : M world A) (k : A -> group (group shape)) (w : world) :
  appends_defs P loop ->
  let m := try_except_pass (a <- loop ;; layer_add (k a)) in
  defs (snd (m w)) = defs w ++ added_defs m w /\ Forall P (added_defs m w).
Proof.
  intros F m. destruct (effect_body_defs P loop k w F) as (new & D & HP).
  unfold added_defs. fold m in D. rewrite D, skipn_app_length. auto.
Qed.

(** C4. In both variants [create_shadow_gradient] adds one linear
    gradient whose stops are (0%, #000000, shadow_opacity) and
    (100%, #000000, 0.0), and [create_drop_gradient] adds one radial
    gradient with cx = cy = 0.3, r = 0.7 and the stops (0%, #ffffff, 0.0),
    (37%, #121212, 0.014), (100%, #ffffff, 0.286); neither depends on a
    position or a size, the body stops of the two variants are the same
    list, and every gradient that a run of [effect] adds to [defs] is
    one of the two. Every drop that a drop constructor returns adds
    exactly these two gradients: the fill of its shadow names the linear
    one with the shadow stops, the fill of its body names the radial one
    with the body stops, and its highlight is filled with plain white. *)
Theorem C4_gradient_stops :
  (forall o w,
     map recipe_of (added_defs (SweatDrop.create_shadow_gradient o) w)
     = [(LinearGradient, None, None, None,
         spec_shadow_stops (SweatDrop.shadow_opacity o))]) /\
  (forall o w,
     map recipe_of (added_defs (Teardrop.create_shadow_gradient o) w)
     = [(LinearGradient, None, None, None,
         spec_shadow_stops (Teardrop.shadow_opacity o))]) /\
  (forall w,
     map recipe_of (added_defs SweatDrop.create_drop_gradient w)
     = [(RadialGradient, Some (Text "0.3"), Some (Text "0.3"),
         Some (Text "0.7"), spec_body_stops)]) /\
  (forall w1 w2,
     map recipe_of (added_defs Teardrop.create_drop_gradient w2)
     = map recipe_of (added_defs SweatDrop.create_drop_gradient w1)) /\
  (forall o w,
     defs (snd (SweatDrop.effect o w))
     = defs w ++ added_defs (SweatDrop.effect o) w /\
     Forall (recipe_gradient (SweatDrop.shadow_opacity o))
       (added_defs (SweatDrop.effect o) w)) /\
  (forall o w,
     defs (snd (Teardrop.effect o w))
     = defs w ++ added_defs (Teardrop.effect o) w /\
     Forall (recipe_gradient (Teardrop.shadow_opacity o))
       (added_defs (Teardrop.effect o) w)) /\
  (forall o index base sv w g w',
     SweatDrop.create_single_drop o index base sv w = (inr g, w') ->
     exists shadow body highlight gs gb ids idb,
       children g = [shadow; body; highlight] /\
       defs w' = defs w ++ [gs; gb] /\
       fill_of shadow = Some (url ids) /\
       gradient_id gs = Some (Text ids) /\
       recipe_of gs
       = (LinearGradient, None, None, None,
          spec_shadow_stops (SweatDrop.shadow_opacity o)) /\
       fill_of body = Some (url idb) /\
       gradient_id gb = Some (Text idb) /\
       recipe_of gb
       = (RadialGradient, Some (Text "0.3"), Some (Text "0.3"),
          Some (Text "0.7"), spec_body_stops) /\
       fill_of highlight = Some (Text "#ffffff")) /\
  (forall o index base sv w g w',
     Teardrop.create_single_teardrop o index base sv w = (inr g, w') ->
     exists shadow body highlight gs gb ids idb,
       children g = [shadow; body; highlight] /\
       defs w' = defs w ++ [gs; gb] /\
       fill_of shadow = Some (url ids) /\
       gradient_id gs = Some (Text ids) /\
       recipe_of gs
       = (LinearGradient, None, None, None,
          spec_shadow_stops (Teardrop.shadow_opacity o)) /\
       fill_of body = Some (url idb) /\
       gradient_id gb = Some (Text idb) /\
       recipe_of gb
       = (RadialGradient, Some (Text "0.3"), Some (Text "0.3"),
          Some (Text "0.7"), spec_body_stops) /\
       fill_of highlight = Some (Text "#ffffff")).
Proof.
  split; [| split; [| split; [| split; [| split; [| split; [| split]]]]]];
    [| | | | | | exact sweat_drop_fills | exact tear_drop_fills].
  - intros o w. unfold added_defs. rewrite sweat_shadow_gradient_run.
    simpl. rewrite skipn_app_length. reflexivity.
  - intros o w. unfold added_defs. rewrite tear_shadow_gradient_run.
    simpl. rewrite skipn_app_length. reflexivity.
  - intros w. unfold added_defs. rewrite sweat_drop_gradient_run.
    simpl. rewrite skipn_app_length. reflexivity.
  - intros w1 w2. unfold added_defs.
    rewrite sweat_drop_gradient_run, tear_drop_gradient_run.
    simpl. rewrite !skipn_app_length. reflexivity.
  - intros o w.
    apply (added_defs_effect (recipe_gradient (SweatDrop.shadow_opacity o))
             _ (fun g => g)).
    apply appends_for_range. intros i acc.
    apply appends_bind;
      [apply sweat_create_single_drop_frame | intro; apply appends_ret].
  - intros o w.
    apply (added_defs_effect (recipe_gradient (Teardrop.shadow_opacity o))
             _ (fun g => g)).
    apply appends_for_range. intros i acc.
    apply appends_bind;
      [apply tear_create_single_teardrop_frame | intro; apply appends_ret].
Qed.

(** C5. For every centre, size and ratio, also infinite or NaN, the path
    of [create_teardrop_path] starts with [M], has four cubic segments
    and ends with [Z]; the first and the last of its thirteen coordinate
    pairs are both [(x, y + height * 0.3)] with
    [height = size * teardrop_ratio]. *)
Theorem C5_teardrop_path_closed :
  forall o x y size rotation,
    let d := Teardrop.create_teardrop_path o x y size rotation in
    let height := fmul size (Teardrop.teardrop_ratio o) in
    let bottom := (x, fadd y (fmul height (Fin (3 / 10)))) in
    hd_error d = Some (Cmd "M") /\
    last d (Cmd "") = Cmd "Z" /\
    cubic_segments d = 4%nat /\
    List.length (coords d) = 13%nat /\
    hd_error (coords d) = Some bottom /\
    last (coords d) (NaN, NaN) = bottom.
Proof.
  intros o x y size rotation. cbv zeta. repeat split.
Qed.

(** The draws of the example: position (0, 0) and size 20, whatever the
    generator returns. *)
Lemma example_single_drop index w :
  SweatDrop.create_single_drop example_options index (Fin 20) (Fin 0) w
  = SweatDrop.build_drop_group example_options index
      (Fin 0) (Fin 0) (Fin 20) (tick (tick (tick w))).
Proof.
  rewrite sweat_create_single_drop_run.
  cbn [fadd fmul fsub fneg SweatDrop.area_width SweatDrop.area_height
       example_options].
  f_equal; f_equal; ring.
Qed.

Lemma example_single_teardrop index w :
  exists rotation,
    Teardrop.create_single_teardrop teardrop_example_options index
      (Fin 20) (Fin 0) w
    = Teardrop.build_drop_group teardrop_example_options index
        (Fin 0) (Fin 0) (Fin 20) rotation (tick (tick (tick (tick w)))).
Proof.
  eexists. rewrite tear_create_single_teardrop_run.
  cbn [fadd fmul fsub fneg Teardrop.area_width Teardrop.area_height
       Teardrop.rotation_variation teardrop_example_options].
  f_equal; f_equal; ring.
Qed.

Lemma cos_45_degrees : cos (45 * (PI / 180)) = 1 / sqrt 2.
Proof. replace (45 * (PI / 180)) with (PI / 4) by field. apply cos_PI4. Qed.

Lemma sin_45_degrees : sin (45 * (PI / 180)) = 1 / sqrt 2.
Proof. replace (45 * (PI / 180)) with (PI / 4) by field. apply sin_PI4. Qed.

(** C6. The shadow of a drop is placed at the position of the drop plus
    [(cos(radians(shadow_angle)) * shadow_distance,
      sin(radians(shadow_angle)) * shadow_distance)]: in the ellipse
    variant it is an ellipse about that point with radii [size * 0.6] and
    [size * 0.8], in the teardrop variant the teardrop path about that
    point. With the options of the example ([drop_count = 1],
    [drop_size = 20], no size variation, an area of 0 by 0, angle 45 and
    distance 3) a run adds exactly one drop, whose body is centred at
    (0, 0) with the radii of size 20, and whose shadow is centred at
    [(cos(45 deg) * 3, sin(45 deg) * 3)], for every generator; the same
    holds of the teardrop paths of the teardrop variant. *)
Theorem C6_shadow_offset :
  (forall o x y size w a,
     SweatDrop.shadow_angle o = Fin a ->
     exists shadow w',
       SweatDrop.create_shadow o x y size w = (inr shadow, w') /\
       shape_tag shadow = Ellipse /\
       attrib shadow
       = [("cx", Num (fadd x (fmul (Fin (cos (a * (PI / 180))))
                                (SweatDrop.shadow_distance o))));
          ("cy", Num (fadd y (fmul (Fin (sin (a * (PI / 180))))
                                (SweatDrop.shadow_distance o))));
          ("rx", Num (fmul size (Fin (6 / 10))));
          ("ry", Num (fmul size (Fin (8 / 10))))]) /\
  (forall o x y size rotation w a,
     Teardrop.shadow_angle o = Fin a ->
     exists shadow w',
       Teardrop.create_teardrop_shadow o x y size rotation w
       = (inr shadow, w') /\
       shape_tag shadow = PathElement /\
       attrib shadow
       = [("d", PathData
                  (Teardrop.create_teardrop_path o
                     (fadd x (fmul (Fin (cos (a * (PI / 180))))
                                (Teardrop.shadow_distance o)))
                     (fadd y (fmul (Fin (sin (a * (PI / 180))))
                                (Teardrop.shadow_distance o)))
                     size rotation))]) /\
  (forall w,
     exists g shadow body highlight w',
       SweatDrop.effect example_options w = (inr tt, w') /\
       layer w' = layer w ++ [mkGroup "Sweat Drops" [g]] /\
       children g = [shadow; body; highlight] /\
       attrib body
       = [("cx", Num (Fin 0)); ("cy", Num (Fin 0));
          ("rx", Num (Fin (20 * (6 / 10))));
          ("ry", Num (Fin (20 * (8 / 10))))] /\
       attrib shadow
       = [("cx", Num (Fin (0 + cos (45 * (PI / 180)) * 3)));
          ("cy", Num (Fin (0 + sin (45 * (PI / 180)) * 3)));
          ("rx", Num (Fin (20 * (6 / 10))));
          ("ry", Num (Fin (20 * (8 / 10))))]) /\
  (forall w,
     exists g shadow body highlight rotation w',
       Teardrop.effect teardrop_example_options w = (inr tt, w') /\
       layer w' = layer w ++ [mkGroup "Teardrop Sweat Drops" [g]] /\
       children g = [shadow; body; highlight] /\
       attrib body
       = [("d", PathData
                  (Teardrop.create_teardrop_path teardrop_example_options
                     (Fin 0) (Fin 0) (Fin 20) rotation))] /\
       attrib shadow
       = [("d", PathData
                  (Teardrop.create_teardrop_path teardrop_example_options
                     (Fin (0 + cos (45 * (PI / 180)) * 3))
                     (Fin (0 + sin (45 * (PI / 180)) * 3))
                     (Fin 20) rotation))]) /\
  (forall index w,
     SweatDrop.create_single_drop example_options index (Fin 20) (Fin 0) w
     = SweatDrop.build_drop_group example_options index
         (Fin 0) (Fin 0) (Fin 20) (tick (tick (tick w)))) /\
  cos (45 * (PI / 180)) * 3 = 3 / sqrt 2 /\
  sin (45 * (PI / 180)) * 3 = 3 / sqrt 2.
Proof.
  split; [| split; [| split; [| split; [| split; [| split]]]]].
  - intros o x y size w a Ha.
    do 2 eexists. split; [apply (sweat_create_shadow_run o a Ha) |].
    split; reflexivity.
  - intros o x y size rotation w a Ha.
    do 2 eexists. split; [apply (tear_create_shadow_run o a Ha) |].
    split; reflexivity.
  - intros w.
    destruct (sweat_effect_drops example_options w)
      as (drops & w' & E & L & Len & Hn);
      [exists 45; reflexivity | exists 135; reflexivity |].
    destruct drops as [| g [| g' drops]]; try discriminate Len.
    destruct (Hn 0%nat g eq_refl) as (_ & wk & wk' & Ek).
    simpl in Ek. rewrite example_single_drop in Ek.
    destruct (sweat_build_drop_group_run example_options 45 135
                eq_refl eq_refl 0 (Fin 0) (Fin 0) (Fin 20)
                (tick (tick (tick wk))))
      as (sh & bo & hl & w1 & w2 & E1 & E2 & E3 & Eg).
    rewrite Eg in Ek. inversion Ek as [[Hg Hw]].
    rewrite (sweat_create_shadow_run example_options 45 eq_refl) in E1.
    rewrite sweat_create_main_drop_run in E2.
    inversion E1 as [[Hs Hw1]]. inversion E2 as [[Hb Hw2]].
    exists g, sh, bo, hl, w'.
    split; [apply try_except_pass_returns, E |].
    split; [exact L |]. split; [rewrite <- Hg; reflexivity |].
    rewrite <- Hs, <- Hb. split; reflexivity.
  - intros w.
    destruct (tear_effect_drops teardrop_example_options w)
      as (drops & w' & E & L & Len & Hn);
      [exists 45; reflexivity | exists 135; reflexivity |].
    destruct drops as [| g [| g' drops]]; try discriminate Len.
    destruct (Hn 0%nat g eq_refl) as (_ & wk & wk' & Ek).
    simpl in Ek.
    destruct (example_single_teardrop 0 wk) as (rot & Er).
    rewrite Er in Ek.
    destruct (tear_build_drop_group_run teardrop_example_options 45 135
                eq_refl eq_refl 0 (Fin 0) (Fin 0) (Fin 20) rot
                (tick (tick (tick (tick wk)))))
      as (sh & bo & hl & w1 & w2 & E1 & E2 & E3 & Eg).
    rewrite Eg in Ek. inversion Ek as [[Hg Hw]].
    rewrite (tear_create_shadow_run teardrop_example_options 45 eq_refl)
      in E1.
    rewrite tear_create_main_run in E2.
    inversion E1 as [[Hs Hw1]]. inversion E2 as [[Hb Hw2]].
    exists g, sh, bo, hl, rot, w'.
    split; [apply try_except_pass_returns, E |].
    split; [exact L |]. split; [rewrite <- Hg; reflexivity |].
    rewrite <- Hs, <- Hb. split; reflexivity.
  - apply example_single_drop.
  - rewrite cos_45_degrees. field. apply Rgt_not_eq, sqrt_lt_R0. lra.
  - rewrite sin_45_degrees. field. apply Rgt_not_eq, sqrt_lt_R0. lra.
Qed.

(** *** Exceptions *)

Lemma radians_inf (s : bool) : radians (Inf s) = Inf s.
Proof.
  unfold radians, fmul, Rneg. pose proof PI_RGT_0 as HP.
  destruct (Req_dec_T (PI / 180) 0) as [E | _]; [lra |].
  destruct (Rlt_dec (PI / 180) 0) as [L | _]; [lra |].
  destruct s; reflexivity.
Qed.

Lemma try_except_pass_total (m : M world unit) (w : world) :
  fst (try_except_pass m w) = inr tt.
Proof. unfold try_except_pass. destruct (m w) as [[e | u] w']; reflexivity. Qed.

Lemma try_except_pass_swallows (m : M world unit) (w w' : world) (e : exn) :
  m w = (inl e, w') -> try_except_pass m w = (inr tt, w').
Proof. unfold try_except_pass. intros ->. reflexivity. Qed.

Lemma not_raises_try_except_pass (m : M world unit) (w : world) :
  ~ raises (try_except_pass m) w.
Proof.
  intros (e & w' & H). pose proof (try_except_pass_total m w) as T.
  rewrite H in T. discriminate.
Qed.

Lemma sweat_create_shadow_raises o s x y size w :
  SweatDrop.shadow_angle o = Inf s ->
  SweatDrop.create_shadow o x y size w
  = (inl (ValueError "math domain error"), w).
Proof.
  intros H. unfold SweatDrop.create_shadow. rewrite H, radians_inf.
  reflexivity.
Qed.

Lemma tear_create_shadow_raises o s x y size rot w :
  Teardrop.shadow_angle o = Inf s ->
  Teardrop.create_teardrop_shadow o x y size rot w
  = (inl (ValueError "math domain error"), w).
Proof.
  intros H. unfold Teardrop.create_teardrop_shadow. rewrite H, radians_inf.
  reflexivity.
Qed.

Lemma sweat_effect_body_raises o s w :
  SweatDrop.shadow_angle o = Inf s -> (0 < SweatDrop.drop_count o)%Z ->
  SweatDrop.effect_body o w
  = (inl (ValueError "math domain error"), tick (tick (tick w))).
Proof.
  intros H Hc. unfold SweatDrop.effect_body. cbv zeta.
  destruct (Z.to_nat (SweatDrop.drop_count o)) as [| n] eqn:En; [lia |].
  cbn [for_range].
  apply bind_raise, bind_raise, bind_raise.
  rewrite sweat_create_single_drop_run.
  unfold SweatDrop.build_drop_group. cbv zeta.
  apply bind_raise, (sweat_create_shadow_raises o s), H.
Qed.

Lemma tear_effect_body_raises o s w :
  Teardrop.shadow_angle o = Inf s -> (0 < Teardrop.drop_count o)%Z ->
  Teardrop.effect_body o w
  = (inl (ValueError "math domain error"), tick (tick (tick (tick w)))).
Proof.
  intros H Hc. unfold Teardrop.effect_body. cbv zeta.
  destruct (Z.to_nat (Teardrop.drop_count o)) as [| n] eqn:En; [lia |].
  cbn [for_range].
  apply bind_raise, bind_raise, bind_raise.
  rewrite tear_create_single_teardrop_run.
  unfold Teardrop.build_drop_group. cbv zeta.
  apply bind_raise, (tear_create_shadow_raises o s), H.
Qed.

Lemma effect_body_raise_layer {A} (P : gradient -> Prop)
    (loop : M world A) (k : A -> group (group shape)) (w w' : world) e :
  appends_defs P loop ->
  (a <- loop ;; layer_add (k a)) w = (inl e, w') ->
  layer w' = layer w.
Proof.
  intros F H. unfold bind in H.
  destruct (loop w) as [[e1 | a] w1] eqn:E.
  - inversion H; subst. apply (F _ _ _ E).
  - discriminate H.
Qed.

Lemma sweat_loop_frame o :
  appends_defs (recipe_gradient (SweatDrop.shadow_opacity o))
    (for_range (Z.to_nat (SweatDrop.drop_count o)) 0
       (fun i main_group =>
          drop_group <-
            SweatDrop.create_single_drop o i (SweatDrop.drop_size o)
              (SweatDrop.size_variation o) ;;
          ret (add main_group drop_group))
       (mkGroup "Sweat Drops" [])).
Proof.
  apply appends_for_range. intros i acc.
  apply appends_bind;
    [apply sweat_create_single_drop_frame | intro; apply appends_ret].
Qed.

Lemma tear_loop_frame o :
  appends_defs (recipe_gradient (Teardrop.shadow_opacity o))
    (for_range (Z.to_nat (Teardrop.drop_count o)) 0
       (fun i main_group =>
          drop_group <-
            Teardrop.create_single_teardrop o i (Teardrop.drop_size o)
              (Teardrop.size_variation o) ;;
          ret (add main_group drop_group))
       (mkGroup "Teardrop Sweat Drops" [])).
Proof.
  apply appends_for_range. intros i acc.
  apply appends_bind;
    [apply tear_create_single_teardrop_frame | intro; apply appends_ret].
Qed.

(** C7, the claim as it is written fails. The options with an infinite
    shadow angle violate the precondition, the body of [effect] raises
    [ValueError], and yet [effect] returns without an error and without
    a group in the layer: the error is swallowed. The options with a NaN
    size violate the precondition as well, and [effect] returns with a
    drop group in the layer. *)
Lemma C7_counterexample :
  ~ valid_sweat_options infinite_angle_options /\
  raises (SweatDrop.effect_body infinite_angle_options) (empty_world 0) /\
  ~ raises (SweatDrop.effect infinite_angle_options) (empty_world 0) /\
  layer (snd (SweatDrop.effect infinite_angle_options (empty_world 0))) = [] /\
  ~ valid_sweat_options nan_size_options /\
  ~ raises (SweatDrop.effect nan_size_options) (empty_world 0) /\
  exists g,
    layer (snd (SweatDrop.effect nan_size_options (empty_world 0)))
    = [mkGroup "Sweat Drops" [g]].
Proof.
  assert (B : SweatDrop.effect_body infinite_angle_options (empty_world 0)
              = (inl (ValueError "math domain error"),
                 tick (tick (tick (empty_world 0)))))
    by (apply (sweat_effect_body_raises _ false); reflexivity).
  split; [| split; [| split; [| split; [| split; [| split]]]]].
  - intros V. unfold valid_sweat_options in V. simpl in V. tauto.
  - do 2 eexists. exact B.
  - apply not_raises_try_except_pass.
  - unfold SweatDrop.effect.
    rewrite (try_except_pass_swallows _ _ _ _ B). reflexivity.
  - intros V. unfold valid_sweat_options in V. simpl in V. tauto.
  - apply not_raises_try_except_pass.
  - destruct (sweat_effect_drops nan_size_options (empty_world 0))
      as (drops & w' & E & L & Len & _);
      [exists 45; reflexivity | exists 135; reflexivity |].
    destruct drops as [| g [| g' drops]]; try discriminate Len.
    exists g. unfold SweatDrop.effect.
    rewrite (try_except_pass_returns _ _ _ E). exact L.
Qed.

(** C7, amended. [effect] never raises, in either variant and for every
    option value: an exception of its body is caught and discarded, and
    then the layer is left as it was. The body does not raise for valid
    options; it does raise [ValueError] when the shadow angle is
    infinite and at least one drop is asked for. *)
Theorem C7_errors_swallowed :
  (forall o w, fst (SweatDrop.effect o w) = inr tt) /\
  (forall o w, fst (Teardrop.effect o w) = inr tt) /\
  (forall o w e w',
     SweatDrop.effect_body o w = (inl e, w') ->
     SweatDrop.effect o w = (inr tt, w') /\ layer w' = layer w) /\
  (forall o w e w',
     Teardrop.effect_body o w = (inl e, w') ->
     Teardrop.effect o w = (inr tt, w') /\ layer w' = layer w) /\
  (forall o w, valid_sweat_options o ->
     ~ raises (SweatDrop.effect_body o) w) /\
  (forall o w, valid_teardrop_options o ->
     ~ raises (Teardrop.effect_body o) w) /\
  (forall o s w,
     SweatDrop.shadow_angle o = Inf s -> (0 < SweatDrop.drop_count o)%Z ->
     raises (SweatDrop.effect_body o) w) /\
  (forall o s w,
     Teardrop.shadow_angle o = Inf s -> (0 < Teardrop.drop_count o)%Z ->
     raises (Teardrop.effect_body o) w).
Proof.
  split; [| split; [| split; [| split; [| split; [| split; [| split]]]]]].
  - intros o w. apply try_except_pass_total.
  - intros o w. apply try_except_pass_total.
  - intros o w e w' H. split.
    + unfold SweatDrop.effect. apply (try_except_pass_swallows _ _ _ _ H).
    + apply (effect_body_raise_layer _ _ (fun g => g) _ _ _
               (sweat_loop_frame o) H).
  - intros o w e w' H. split.
    + unfold Teardrop.effect. apply (try_except_pass_swallows _ _ _ _ H).
    + apply (effect_body_raise_layer _ _ (fun g => g) _ _ _
               (tear_loop_frame o) H).
  - intros o w V (e & w' & H).
    destruct (sweat_effect_drops o w) as (drops & w1 & E & _);
      [apply finite_inv, V | apply finite_inv, V |].
    rewrite E in H. discriminate.
  - intros o w V (e & w' & H).
    destruct (tear_effect_drops o w) as (drops & w1 & E & _);
      [apply finite_inv, V | apply finite_inv, V |].
    rewrite E in H. discriminate.
  - intros o s w H Hc. do 2 eexists.
    apply (sweat_effect_body_raises o s w H Hc).
  - intros o s w H Hc. do 2 eexists.
    apply (tear_effect_body_raises o s w H Hc).
Qed.

(** *** Gradient identifiers under a constant generator *)

Lemma id_draw_zero_tape w : zero_tape w -> id_draw w = 1000%Z.
Proof. intros K. unfold id_draw. rewrite K. reflexivity. Qed.

Lemma sweat_single_drop_ids o a h index base sv w :
  SweatDrop.shadow_angle o = Fin a -> SweatDrop.highlight_angle o = Fin h ->
  zero_tape w ->
  exists g w',
    SweatDrop.create_single_drop o index base sv w = (inr g, w') /\
    zero_tape w' /\
    map gradient_id (defs w') = map gradient_id (defs w) ++ colliding_ids.
Proof.
  intros Ha Hh K. rewrite sweat_create_single_drop_run.
  set (w3 := tick (tick (tick w))).
  assert (K3 : zero_tape w3) by (intro n; apply K).
  match goal with
  | |- context [SweatDrop.build_drop_group o index ?x ?y ?s w3] =>
      destruct (sweat_build_drop_group_run o a h Ha Hh index x y s w3)
        as (sh & bo & hl & w1 & w2 & E1 & E2 & _ & E)
  end.
  rewrite (sweat_create_shadow_run o a Ha) in E1.
  rewrite sweat_create_main_drop_run in E2.
  rewrite sweat_shadow_gradient_run in E1. inversion E1 as [[Hs Hw1]].
  assert (K1 : zero_tape w1) by (rewrite <- Hw1; intro n; apply K).
  rewrite sweat_drop_gradient_run in E2. inversion E2 as [[Hb Hw2]].
  exists (mkGroup ("Drop_" ++ str_int (index + 1))%string [sh; bo; hl]), w2.
  split; [exact E |]. split.
  - rewrite <- Hw2. intro n. apply K1.
  - rewrite <- Hw2. cbn [defs snd]. rewrite map_app.
    rewrite (id_draw_zero_tape w1 K1). rewrite <- Hw1. cbn [defs snd].
    rewrite map_app, (id_draw_zero_tape w3 K3), <- app_assoc. reflexivity.
Qed.

Lemma tear_single_drop_ids o a h index base sv w :
  Teardrop.shadow_angle o = Fin a -> Teardrop.highlight_angle o = Fin h ->
  zero_tape w ->
  exists g w',
    Teardrop.create_single_teardrop o index base sv w = (inr g, w') /\
    zero_tape w' /\
    map gradient_id (defs w') = map gradient_id (defs w) ++ colliding_ids.
Proof.
  intros Ha Hh K. rewrite tear_create_single_teardrop_run.
  set (w4 := tick (tick (tick (tick w)))).
  assert (K4 : zero_tape w4) by (intro n; apply K).
  match goal with
  | |- context [Teardrop.build_drop_group o index ?x ?y ?s ?r w4] =>
      destruct (tear_build_drop_group_run o a h Ha Hh index x y s r w4)
        as (sh & bo & hl & w1 & w2 & E1 & E2 & _ & E)
  end.
  rewrite (tear_create_shadow_run o a Ha) in E1.
  rewrite tear_create_main_run in E2.
  rewrite tear_shadow_gradient_run in E1. inversion E1 as [[Hs Hw1]].
  assert (K1 : zero_tape w1) by (rewrite <- Hw1; intro n; apply K).
  rewrite tear_drop_gradient_run in E2. inversion E2 as [[Hb Hw2]].
  exists (mkGroup ("Teardrop_" ++ str_int (index + 1))%string [sh; bo; hl]),
    w2.
  split; [exact E |]. split.
  - rewrite <- Hw2. intro n. apply K1.
  - rewrite <- Hw2. cbn [defs snd]. rewrite map_app.
    rewrite (id_draw_zero_tape w1 K1). rewrite <- Hw1. cbn [defs snd].
    rewrite map_app, (id_draw_zero_tape w4 K4), <- app_assoc. reflexivity.
Qed.

(** The loop of [effect] over a constructor that adds the same
    identifiers at every call. *)
Lemma for_range_ids {A} (create : Z -> M world A) :
  (forall i w, zero_tape w ->
     exists g w', create i w = (inr g, w') /\ zero_tape w' /\
       map gradient_id (defs w') = map gradient_id (defs w) ++ colliding_ids) ->
  forall n start (acc : group A) w, zero_tape w ->
  exists main_group w',
    for_range n start
      (fun i main_group => g <- create i ;; ret (add main_group g)) acc w
    = (inr main_group, w') /\
    map gradient_id (defs w')
    = map gradient_id (defs w) ++ List.concat (repeat colliding_ids n).
Proof.
  intros Hc. induction n as [| n IH]; intros start acc w K.
  - exists acc, w. simpl. rewrite app_nil_r. auto.
  - destruct (Hc start w K) as (g0 & w0 & E0 & K0 & D0).
    destruct (IH (start + 1)%Z (add acc g0) w0 K0) as (mg & w' & E & D).
    exists mg, w'. split.
    + assert (E1 : (g <- create start ;; ret (add acc g)) w
                   = (inr (add acc g0), w0))
        by (rewrite (bind_run _ _ _ _ _ E0); reflexivity).
      cbn [for_range]. rewrite (bind_run _ _ _ _ _ E1). exact E.
    + rewrite D, D0, <- app_assoc. reflexivity.
Qed.

(** C8, evaluated where the code fails. With a generator whose draws are
    all equal, a run for two drops adds four gradients to [defs] whose
    identifiers are [shadowGradient_1000], [dropGradient_1000],
    [shadowGradient_1000], [dropGradient_1000], in both variants: the
    identifiers of the document are not pairwise distinct. *)
Theorem C8_gradient_ids_collide :
  map gradient_id (defs (snd (SweatDrop.effect two_drops_options
                                (empty_world 0))))
  = colliding_ids ++ colliding_ids /\
  map gradient_id (defs (snd (Teardrop.effect two_teardrops_options
                                (empty_world 0))))
  = colliding_ids ++ colliding_ids /\
  ~ NoDup (colliding_ids ++ colliding_ids).
Proof.
  assert (K : zero_tape (empty_world 0)) by (intro n; reflexivity).
  split; [| split].
  - destruct (for_range_ids
                (fun i => SweatDrop.create_single_drop two_drops_options i
                            (Fin 20) (Fin (3 / 10)))
                (fun i w => sweat_single_drop_ids two_drops_options 45 135
                              i _ _ w eq_refl eq_refl)
                2%nat 0%Z (@mkGroup (group shape) "Sweat Drops" [])
                (empty_world 0) K)
      as (mg & w' & E & D).
    unfold SweatDrop.effect, try_except_pass, SweatDrop.effect_body.
    cbv zeta.
    change (Z.to_nat (SweatDrop.drop_count two_drops_options)) with 2%nat.
    change (SweatDrop.drop_size two_drops_options) with (Fin 20).
    change (SweatDrop.size_variation two_drops_options) with (Fin (3 / 10)).
    rewrite (bind_run _ _ _ _ _ E). simpl. rewrite D. reflexivity.
  - destruct (for_range_ids
                (fun i => Teardrop.create_single_teardrop
                            two_teardrops_options i (Fin 20) (Fin (3 / 10)))
                (fun i w => tear_single_drop_ids two_teardrops_options 45 135
                              i _ _ w eq_refl eq_refl)
                2%nat 0%Z (@mkGroup (group shape) "Teardrop Sweat Drops" [])
                (empty_world 0) K)
      as (mg & w' & E & D).
    unfold Teardrop.effect, try_except_pass, Teardrop.effect_body.
    cbv zeta.
    change (Z.to_nat (Teardrop.drop_count two_teardrops_options)) with 2%nat.
    change (Teardrop.drop_size two_teardrops_options) with (Fin 20).
    change (Teardrop.size_variation two_teardrops_options)
      with (Fin (3 / 10)).
    rewrite (bind_run _ _ _ _ _ E). simpl. rewrite D. reflexivity.
  - intros N. inversion N as [| x l Hin _]. apply Hin.
    right. left. reflexivity.
Qed.

(** *** Rotation *)

Lemma rotate_about_zero cx cy :
  Teardrop.rotate_about (Fin 0) cx cy = None.
Proof.
  unfold Teardrop.rotate_about, fne0.
  destruct (Req_dec_T 0 0) as [_ | N]; [reflexivity | contradiction N; reflexivity].
Qed.

Lemma rotate_about_nonzero r cx cy :
  r <> 0 ->
  Teardrop.rotate_about (Fin r) cx cy = Some (Rotate (Fin r) cx cy).
Proof.
  intros N. unfold Teardrop.rotate_about, fne0.
  destruct (Req_dec_T r 0) as [E | _]; [contradiction | reflexivity].
Qed.

Lemma rotate_about_cases rot cx cy :
  (rot = Fin 0 -> Teardrop.rotate_about rot cx cy = None) /\
  (forall r, rot = Fin r -> r <> 0 ->
   Teardrop.rotate_about rot cx cy = Some (Rotate rot cx cy)).
Proof.
  split.
  - intros ->. apply rotate_about_zero.
  - intros r -> N. apply rotate_about_nonzero, N.
Qed.

(** C9. The path of [create_teardrop_path] is the same for every value
    of [rotation]. Each of the three shapes of a teardrop carries the
    path about its own centre, computed as for rotation 0: the shadow
    about the offset centre, the body about the centre of the drop, the
    highlight about the centre of the highlight. A finite rotation
    other than 0 is attached as a rotation about that same centre, and
    for rotation 0 no transform is attached. *)
Theorem C9_rotation_is_a_transform :
  (forall o x y size rotation rotation',
     Teardrop.create_teardrop_path o x y size rotation
     = Teardrop.create_teardrop_path o x y size rotation') /\
  (forall o x y size rotation w,
     exists body w',
       Teardrop.create_teardrop_main o x y size rotation w
       = (inr body, w') /\
       attrib body
       = [("d", PathData (Teardrop.create_teardrop_path o x y size (Fin 0)))]
       /\
       (rotation = Fin 0 -> transform body = None) /\
       (forall r, rotation = Fin r -> r <> 0 ->
        transform body = Some (Rotate rotation x y))) /\
  (forall o x y size rotation w a,
     Teardrop.shadow_angle o = Fin a ->
     let shadow_x :=
       fadd x (fmul (Fin (cos (a * (PI / 180)))) (Teardrop.shadow_distance o))
     in
     let shadow_y :=
       fadd y (fmul (Fin (sin (a * (PI / 180)))) (Teardrop.shadow_distance o))
     in
     exists shadow w',
       Teardrop.create_teardrop_shadow o x y size rotation w
       = (inr shadow, w') /\
       attrib shadow
       = [("d", PathData
                  (Teardrop.create_teardrop_path o shadow_x shadow_y size
                     (Fin 0)))] /\
       (rotation = Fin 0 -> transform shadow = None) /\
       (forall r, rotation = Fin r -> r <> 0 ->
        transform shadow = Some (Rotate rotation shadow_x shadow_y))) /\
  (forall o x y size rotation w h,
     Teardrop.highlight_angle o = Fin h ->
     let highlight_x :=
       fadd x (fmul (Fin (cos (h * (PI / 180)))) (fmul size (Fin (2 / 10))))
     in
     let highlight_y :=
       fadd y (fmul (Fin (sin (h * (PI / 180)))) (fmul size (Fin (2 / 10))))
     in
     exists highlight w',
       Teardrop.create_teardrop_highlight o x y size rotation w
       = (inr highlight, w') /\
       attrib highlight
       = [("d", PathData
                  (Teardrop.create_teardrop_path o highlight_x highlight_y
                     (fmul size (Teardrop.highlight_size o)) (Fin 0)))] /\
       (rotation = Fin 0 -> transform highlight = None) /\
       (forall r, rotation = Fin r -> r <> 0 ->
        transform highlight
        = Some (Rotate rotation highlight_x highlight_y))).
Proof.
  split; [| split; [| split]].
  - reflexivity.
  - intros o x y size rotation w. do 2 eexists.
    split; [apply tear_create_main_run |].
    split; [reflexivity |]. apply rotate_about_cases.
  - intros o x y size rotation w a Ha sx sy. do 2 eexists.
    split; [apply (tear_create_shadow_run o a Ha) |].
    split; [reflexivity |]. apply rotate_about_cases.
  - intros o x y size rotation w h Hh hx hy. do 2 eexists.
    split; [apply (tear_create_highlight_run o h Hh) |].
    split; [reflexivity |]. apply rotate_about_cases.
Qed.

(** C10. In both variants a drop group that is returned has exactly
    three children, appended in this order: the shape of the shadow
    constructor, then the shape of the body constructor, then the shape
    of the highlight constructor, all for the same position and size; a
    later child is stacked above an earlier one. *)
Theorem C10_children_order :
  (forall o index base sv w g w',
     SweatDrop.create_single_drop o index base sv w = (inr g, w') ->
     exists x y size w0 w1 w2 shadow body highlight,
       SweatDrop.create_shadow o x y size w0 = (inr shadow, w1) /\
       SweatDrop.create_main_drop o x y size w1 = (inr body, w2) /\
       SweatDrop.create_highlight o x y size w2 = (inr highlight, w') /\
       children g = [shadow; body; highlight]) /\
  (forall o index base sv w g w',
     Teardrop.create_single_teardrop o index base sv w = (inr g, w') ->
     exists x y size rotation w0 w1 w2 shadow body highlight,
       Teardrop.create_teardrop_shadow o x y size rotation w0
       = (inr shadow, w1) /\
       Teardrop.create_teardrop_main o x y size rotation w1
       = (inr body, w2) /\
       Teardrop.create_teardrop_highlight o x y size rotation w2
       = (inr highlight, w') /\
       children g = [shadow; body; highlight]).
Proof.
  split; intros o index base sv w g w' H.
  - rewrite sweat_create_single_drop_run in H.
    unfold SweatDrop.build_drop_group in H. cbv zeta in H.
    apply bind_inr in H. destruct H as (sh & w1 & E1 & H).
    apply bind_inr in H. destruct H as (bo & w2 & E2 & H).
    apply bind_inr in H. destruct H as (hl & w3 & E3 & H).
    inversion H; subst.
    do 6 eexists. exists sh, bo, hl.
    split; [exact E1 |]. split; [exact E2 |]. split; [exact E3 |].
    reflexivity.
  - rewrite tear_create_single_teardrop_run in H.
    unfold Teardrop.build_drop_group in H. cbv zeta in H.
    apply bind_inr in H. destruct H as (sh & w1 & E1 & H).
    apply bind_inr in H. destruct H as (bo & w2 & E2 & H).
    apply bind_inr in H. destruct H as (hl & w3 & E3 & H).
    inversion H; subst.
    do 7 eexists. exists sh, bo, hl.
    split; [exact E1 |]. split; [exact E2 |]. split; [exact E3 |].
    reflexivity.
Qed.

(** ** The theorems at concrete inputs *)

Lemma default_sweat_options_valid : valid_sweat_options SweatDrop.default_options.
Proof. unfold valid_sweat_options. simpl. repeat split; try exact I. lia. Qed.

Lemma default_teardrop_options_valid :
  valid_teardrop_options Teardrop.default_options.
Proof. unfold valid_teardrop_options. simpl. repeat split; try exact I. lia. Qed.

(** C1 for the default options of the two extensions: five drops each. *)
Lemma C1_witness :
  (exists drops w',
     SweatDrop.effect SweatDrop.default_options (empty_world 0) = (inr tt, w') /\
     layer w' = [mkGroup "Sweat Drops" drops] /\
     List.length drops = 5%nat) /\
  (exists drops w',
     Teardrop.effect Teardrop.default_options (empty_world 0) = (inr tt, w') /\
     layer w' = [mkGroup "Teardrop Sweat Drops" drops] /\
     List.length drops = 5%nat).
Proof.
  split.
  - destruct (proj1 C1_drop_count SweatDrop.default_options (empty_world 0)
                default_sweat_options_valid)
      as (drops & w' & E & L & Len & _).
    exists drops, w'. auto.
  - destruct (proj2 C1_drop_count Teardrop.default_options (empty_world 0)
                default_teardrop_options_valid)
      as (drops & w' & E & L & Len & _).
    exists drops, w'. auto.
Defined.

(** C2 for a base size of 20: the bounds for a variation of 0.3, and a
    size that is not positive for a variation of 2. *)
Lemma C2_witness :
  (exists u,
     - (3 / 10) <= u <= 3 / 10 /\
     20 * (1 - 3 / 10) <= 20 * (1 + u) <= 20 * (1 + 3 / 10)) /\
  (exists w x y w' size,
     SweatDrop.create_single_drop SweatDrop.default_options 0
       (Fin 20) (Fin 2) w
     = SweatDrop.build_drop_group SweatDrop.default_options 0 x y
         (Fin size) w' /\
     size <= 0).
Proof.
  split.
  - destruct (proj1 C2_resolved_size SweatDrop.default_options 0%Z
                20 (3 / 10) (empty_world 0))
      as (u & x & y & w' & _ & _ & Hu & Hs).
    exists u. split; [apply Hu | apply Hs]; lra.
  - apply (proj1 (proj2 (proj2 C2_resolved_size))); lra.
Defined.

(** C3 for the default area of 200 by 200. *)
Lemma C3_witness :
  exists x y size w',
    SweatDrop.create_single_drop SweatDrop.default_options 0
      (Fin 20) (Fin (3 / 10)) (empty_world 0)
    = SweatDrop.build_drop_group SweatDrop.default_options 0
        (Fin x) (Fin y) size w' /\
    0 <= x <= 200 /\ 0 <= y <= 200.
Proof.
  destruct (proj1 C3_position_in_area SweatDrop.default_options 0%Z
              (Fin 20) (Fin (3 / 10)) (empty_world 0) 200 200
              eq_refl eq_refl)
    as (x & y & size & w' & E & Hx & Hy); try lra.
  exists x, y, size, w'. split; [exact E |]. lra.
Defined.

(** C6 for the default shadow angle of 45 degrees. *)
Lemma C6_witness :
  exists shadow w',
    SweatDrop.create_shadow SweatDrop.default_options (Fin 10) (Fin 10)
      (Fin 20) (empty_world 0)
    = (inr shadow, w') /\
    get "cx" (attrib shadow)
    = Some (Num (Fin (10 + cos (45 * (PI / 180)) * 3))) /\
    get "rx" (attrib shadow) = Some (Num (Fin (20 * (6 / 10)))).
Proof.
  destruct (proj1 C6_shadow_offset SweatDrop.default_options
              (Fin 10) (Fin 10) (Fin 20) (empty_world 0) 45 eq_refl)
    as (shadow & w' & E & _ & A).
  exists shadow, w'. split; [exact E |]. rewrite A. split; reflexivity.
Defined.

(** C7 at the options with an infinite shadow angle, and at the
    defaults. *)
Lemma C7_witness :
  (exists w',
     SweatDrop.effect infinite_angle_options (empty_world 0) = (inr tt, w') /\
     layer w' = []) /\
  ~ raises (SweatDrop.effect_body SweatDrop.default_options) (empty_world 0) /\
  raises (SweatDrop.effect_body infinite_angle_options) (empty_world 0).
Proof.
  destruct C7_errors_swallowed as (_ & _ & S & _ & V & _ & Hr & _).
  split; [| split].
  - exists (tick (tick (tick (empty_world 0)))).
    apply (S infinite_angle_options (empty_world 0)
             (ValueError "math domain error")).
    apply (sweat_effect_body_raises _ false); reflexivity.
  - apply V. unfold valid_sweat_options. simpl.
    repeat split; try exact I. lia.
  - apply (Hr infinite_angle_options false); reflexivity.
Defined.

(** C9 for the default shadow and highlight angles: no transform for a
    rotation of 0, a rotation about the centre for a rotation of 30. *)
Lemma C9_witness :
  (exists body w',
     Teardrop.create_teardrop_main Teardrop.default_options
       (Fin 10) (Fin 10) (Fin 20) (Fin 0) (empty_world 0) = (inr body, w') /\
     transform body = None) /\
  (exists body w',
     Teardrop.create_teardrop_main Teardrop.default_options
       (Fin 10) (Fin 10) (Fin 20) (Fin 30) (empty_world 0) = (inr body, w') /\
     transform body = Some (Rotate (Fin 30) (Fin 10) (Fin 10))) /\
  (exists shadow w',
     Teardrop.create_teardrop_shadow Teardrop.default_options
       (Fin 10) (Fin 10) (Fin 20) (Fin 0) (empty_world 0)
     = (inr shadow, w') /\
     transform shadow = None) /\
  (exists highlight w',
     Teardrop.create_teardrop_highlight Teardrop.default_options
       (Fin 10) (Fin 10) (Fin 20) (Fin 0) (empty_world 0)
     = (inr highlight, w') /\
     transform highlight = None).
Proof.
  destruct C9_rotation_is_a_transform as (_ & B & S & H).
  split; [| split; [| split]].
  - destruct (B Teardrop.default_options (Fin 10) (Fin 10) (Fin 20) (Fin 0)
                (empty_world 0)) as (b & w' & E & _ & Z & _).
    exists b, w'. split; [exact E | apply Z; reflexivity].
  - destruct (B Teardrop.default_options (Fin 10) (Fin 10) (Fin 20) (Fin 30)
                (empty_world 0)) as (b & w' & E & _ & _ & N).
    exists b, w'. split; [exact E |]. apply (N 30); [reflexivity | lra].
  - destruct (S Teardrop.default_options (Fin 10) (Fin 10) (Fin 20) (Fin 0)
                (empty_world 0) 45 eq_refl) as (s & w' & E & _ & Z & _).
    exists s, w'. split; [exact E | apply Z; reflexivity].
  - destruct (H Teardrop.default_options (Fin 10) (Fin 10) (Fin 20) (Fin 0)
                (empty_world 0) 135 eq_refl) as (s & w' & E & _ & Z & _).
    exists s, w'. split; [exact E | apply Z; reflexivity].
Defined.

(** C10 for the first drop of each variant with the default options. *)
Lemma C10_witness :
  (exists g shadow body highlight,
     fst (SweatDrop.create_single_drop SweatDrop.default_options 0
            (Fin 20) (Fin (3 / 10)) (empty_world 0)) = inr g /\
     children g = [shadow; body; highlight]) /\
  (exists g shadow body highlight,
     fst (Teardrop.create_single_teardrop Teardrop.default_options 0
            (Fin 20) (Fin (3 / 10)) (empty_world 0)) = inr g /\
     children g = [shadow; body; highlight]).
Proof.
  split.
  - destruct (sweat_create_single_drop_returns SweatDrop.default_options
                45 135 eq_refl eq_refl 0 (Fin 20) (Fin (3 / 10))
                (empty_world 0)) as (g & w' & E & _).
    destruct (proj1 C10_children_order _ _ _ _ _ _ _ E)
      as (x & y & size & w0 & w1 & w2 & sh & bo & hl & _ & _ & _ & C).
    exists g, sh, bo, hl. rewrite E. auto.
  - destruct (tear_create_single_teardrop_returns Teardrop.default_options
                45 135 eq_refl eq_refl 0 (Fin 20) (Fin (3 / 10))
                (empty_world 0)) as (g & w' & E & _).
    destruct (proj2 C10_children_order _ _ _ _ _ _ _ E)
      as (x & y & size & rot & w0 & w1 & w2 & sh & bo & hl & _ & _ & _ & C).
    exists g, sh, bo, hl. rewrite E. auto.
Defined.

(** C4 for the first drop of each variant with the default options. *)
Lemma C4_witness :
  (exists g w' shadow body highlight gs gb ids idb,
     SweatDrop.create_single_drop SweatDrop.default_options 0
       (Fin 20) (Fin (3 / 10)) (empty_world 0) = (inr g, w') /\
     children g = [shadow; body; highlight] /\
     defs w' = [gs; gb] /\
     fill_of shadow = Some (url ids) /\
     gradient_id gs = Some (Text ids) /\
     gradient_tag_of gs = LinearGradient /\
     stops gs = spec_shadow_stops (Fin (515 / 1000)) /\
     fill_of body = Some (url idb) /\
     gradient_id gb = Some (Text idb) /\
     gradient_tag_of gb = RadialGradient /\
     stops gb = spec_body_stops) /\
  (exists g w' shadow body highlight gs gb ids idb,
     Teardrop.create_single_teardrop Teardrop.default_options 0
       (Fin 20) (Fin (3 / 10)) (empty_world 0) = (inr g, w') /\
     children g = [shadow; body; highlight] /\
     defs w' = [gs; gb] /\
     fill_of shadow = Some (url ids) /\
     gradient_id gs = Some (Text ids) /\
     gradient_tag_of gs = LinearGradient /\
     stops gs = spec_shadow_stops (Fin (2 / 10)) /\
     fill_of body = Some (url idb) /\
     gradient_id gb = Some (Text idb) /\
     gradient_tag_of gb = RadialGradient /\
     stops gb = spec_body_stops).
Proof.
  destruct C4_gradient_stops as (_ & _ & _ & _ & _ & _ & S & T).
  split.
  - destruct (sweat_create_single_drop_returns SweatDrop.default_options
                45 135 eq_refl eq_refl 0 (Fin 20) (Fin (3 / 10))
                (empty_world 0)) as (g & w' & E & _).
    destruct (S _ _ _ _ _ _ _ E)
      as (sh & bo & hl & gs & gb & ids & idb
          & C & D & Fs & Is & Rs & Fb & Ib & Rb & _).
    exists g, w', sh, bo, hl, gs, gb, ids, idb.
    unfold recipe_of in Rs, Rb.
    injection Rs as Ts _ _ _ Ss. injection Rb as Tb _ _ _ Sb.
    repeat split; assumption.
  - destruct (tear_create_single_teardrop_returns Teardrop.default_options
                45 135 eq_refl eq_refl 0 (Fin 20) (Fin (3 / 10))
                (empty_world 0)) as (g & w' & E & _).
    destruct (T _ _ _ _ _ _ _ E)
      as (sh & bo & hl & gs & gb & ids & idb
          & C & D & Fs & Is & Rs & Fb & Ib & Rb & _).
    exists g, w', sh, bo, hl, gs, gb, ids, idb.
    unfold recipe_of in Rs, Rb.
    injection Rs as Ts _ _ _ Ss. injection Rb as Tb _ _ _ Sb.
    repeat split; assumption.
Defined.

(** ** Further properties of the generators *)

(** *** Which runs raise *)

Lemma sweat_drop_step o index base sv w :
  ~ is_infinite (SweatDrop.shadow_angle o) ->
  ~ is_infinite (SweatDrop.highlight_angle o) ->
  exists g w',
    SweatDrop.create_single_drop o index base sv w = (inr g, w') /\
    drop_step 5 w g w'.
Proof.
  intros Hs Hh. rewrite sweat_create_single_drop_run.
  unfold SweatDrop.build_drop_group, SweatDrop.create_shadow,
    SweatDrop.create_highlight.
  destruct (SweatDrop.shadow_angle o) as [a | s |];
    [| contradiction Hs; exact I |];
    (destruct (SweatDrop.highlight_angle o) as [h | s |];
     [| contradiction Hh; exact I |]);
    (do 2 eexists; split; [reflexivity |];
     split; [reflexivity |]; split; [cbn; lia |]; split; [reflexivity |];
     do 7 eexists;
     split; [cbn; rewrite <- app_assoc; reflexivity | repeat split]).
Qed.

Lemma tear_drop_step o index base sv w :
  ~ is_infinite (Teardrop.shadow_angle o) ->
  ~ is_infinite (Teardrop.highlight_angle o) ->
  exists g w',
    Teardrop.create_single_teardrop o index base sv w = (inr g, w') /\
    drop_step 6 w g w'.
Proof.
  intros Hs Hh. rewrite tear_create_single_teardrop_run.
  unfold Teardrop.build_drop_group, Teardrop.create_teardrop_shadow,
    Teardrop.create_teardrop_highlight.
  destruct (Teardrop.shadow_angle o) as [a | s |];
    [| contradiction Hs; exact I |];
    (destruct (Teardrop.highlight_angle o) as [h | s |];
     [| contradiction Hh; exact I |]);
    (do 2 eexists; split; [reflexivity |];
     split; [reflexivity |]; split; [cbn; lia |]; split; [reflexivity |];
     do 7 eexists;
     split; [cbn; rewrite <- app_assoc; reflexivity | repeat split]).
Qed.

Lemma for_range_steps {A} (create : Z -> M world A)
    (step : world -> A -> world -> Prop) :
  (forall i w, exists g w', create i w = (inr g, w') /\ step w g w') ->
  forall n start (acc : group A) w,
  exists gs w',
    for_range n start
      (fun i main_group => g <- create i ;; ret (add main_group g)) acc w
    = (inr (mkGroup (label acc) (children acc ++ gs)), w') /\
    List.length gs = n /\
    steps step w gs w'.
Proof.
  intros Hc. induction n as [| n IH]; intros start acc w.
  - exists [], w. simpl. rewrite app_nil_r. destruct acc.
    repeat split. constructor.
  - destruct (Hc start w) as (g0 & w0 & E0 & S0).
    destruct (IH (start + 1)%Z (add acc g0) w0) as (gs & w' & E & L & St).
    exists (g0 :: gs), w'. repeat split.
    + assert (E1 : (g <- create start ;; ret (add acc g)) w
                   = (inr (add acc g0), w0))
        by (rewrite (bind_run _ _ _ _ _ E0); reflexivity).
      cbn [for_range]. rewrite (bind_run _ _ _ _ _ E1), E. simpl.
      rewrite <- app_assoc. reflexivity.
    + simpl. congruence.
    + econstructor; eassumption.
Qed.

Lemma sweat_effect_steps o w :
  ~ is_infinite (SweatDrop.shadow_angle o) ->
  ~ is_infinite (SweatDrop.highlight_angle o) ->
  exists drops w1,
    SweatDrop.effect_body o w
    = (inr tt,
       mkWorld (rand w1) (defs w1)
         (layer w1 ++ [mkGroup "Sweat Drops" drops])) /\
    List.length drops = Z.to_nat (SweatDrop.drop_count o) /\
    steps (drop_step 5) w drops w1.
Proof.
  intros Hs Hh.
  destruct (for_range_steps
              (fun i => SweatDrop.create_single_drop o i
                          (SweatDrop.drop_size o) (SweatDrop.size_variation o))
              (drop_step 5)
              (fun i w0 => sweat_drop_step o i _ _ w0 Hs Hh)
              (Z.to_nat (SweatDrop.drop_count o)) 0%Z
              (@mkGroup (group shape) "Sweat Drops" []) w)
    as (gs & w1 & E & L & St).
  exists gs, w1. split; [| split; assumption].
  unfold SweatDrop.effect_body. cbv zeta.
  rewrite (bind_run _ _ _ _ _ E). reflexivity.
Qed.

Lemma tear_effect_steps o w :
  ~ is_infinite (Teardrop.shadow_angle o) ->
  ~ is_infinite (Teardrop.highlight_angle o) ->
  exists drops w1,
    Teardrop.effect_body o w
    = (inr tt,
       mkWorld (rand w1) (defs w1)
         (layer w1 ++ [mkGroup "Teardrop Sweat Drops" drops])) /\
    List.length drops = Z.to_nat (Teardrop.drop_count o) /\
    steps (drop_step 6) w drops w1.
Proof.
  intros Hs Hh.
  destruct (for_range_steps
              (fun i => Teardrop.create_single_teardrop o i
                          (Teardrop.drop_size o) (Teardrop.size_variation o))
              (drop_step 6)
              (fun i w0 => tear_drop_step o i _ _ w0 Hs Hh)
              (Z.to_nat (Teardrop.drop_count o)) 0%Z
              (@mkGroup (group shape) "Teardrop Sweat Drops" []) w)
    as (gs & w1 & E & L & St).
  exists gs, w1. split; [| split; assumption].
  unfold Teardrop.effect_body. cbv zeta.
  rewrite (bind_run _ _ _ _ _ E). reflexivity.
Qed.

Lemma is_infinite_dec (x : pyfloat) : is_infinite x \/ ~ is_infinite x.
Proof. destruct x; simpl; tauto. Qed.

Lemma is_infinite_inv (x : pyfloat) : is_infinite x -> exists s, x = Inf s.
Proof. destruct x; simpl; intro H; try tauto. eexists; reflexivity. Qed.

(** the first drop fails at its highlight, after its two gradients *)
Lemma sweat_highlight_raises o s index base sv w :
  ~ is_infinite (SweatDrop.shadow_angle o) ->
  SweatDrop.highlight_angle o = Inf s ->
  exists w' gs gb,
    SweatDrop.create_single_drop o index base sv w
    = (inl (ValueError "math domain error"), w') /\
    layer w' = layer w /\
    defs w' = defs w ++ [gs; gb] /\
    gradient_tag_of gs = LinearGradient /\
    gradient_tag_of gb = RadialGradient.
Proof.
  intros Hs Hh. rewrite sweat_create_single_drop_run.
  unfold SweatDrop.build_drop_group, SweatDrop.create_shadow,
    SweatDrop.create_highlight.
  rewrite Hh, radians_inf.
  destruct (SweatDrop.shadow_angle o) as [a | t |];
    [| contradiction Hs; exact I |];
    (do 3 eexists; split; [reflexivity |]; split; [reflexivity |];
     split; [cbn; rewrite <- app_assoc; reflexivity | split; reflexivity]).
Qed.

Lemma tear_highlight_raises o s index base sv w :
  ~ is_infinite (Teardrop.shadow_angle o) ->
  Teardrop.highlight_angle o = Inf s ->
  exists w' gs gb,
    Teardrop.create_single_teardrop o index base sv w
    = (inl (ValueError "math domain error"), w') /\
    layer w' = layer w /\
    defs w' = defs w ++ [gs; gb] /\
    gradient_tag_of gs = LinearGradient /\
    gradient_tag_of gb = RadialGradient.
Proof.
  intros Hs Hh. rewrite tear_create_single_teardrop_run.
  unfold Teardrop.build_drop_group, Teardrop.create_teardrop_shadow,
    Teardrop.create_teardrop_highlight.
  rewrite Hh, radians_inf.
  destruct (Teardrop.shadow_angle o) as [a | t |];
    [| contradiction Hs; exact I |];
    (do 3 eexists; split; [reflexivity |]; split; [reflexivity |];
     split; [cbn; rewrite <- app_assoc; reflexivity | split; reflexivity]).
Qed.

Lemma for_range_first_raises {A} (create : Z -> M world A) n start acc w e w' :
  create start w = (inl e, w') ->
  for_range (S n) start
    (fun i main_group => g <- create i ;; ret (add main_group g)) acc w
  = (inl e, w').
Proof.
  intros H. cbn [for_range]. apply bind_raise, bind_raise, H.
Qed.

Lemma append_prefix_inj (p a b : string) :
  (p ++ a)%string = (p ++ b)%string -> a = b.
Proof.
  induction p as [| c p IH]; simpl; intro H; [exact H |].
  inversion H. auto.
Qed.

Lemma string_length_append (a b : string) :
  String.length (a ++ b)%string = (String.length a + String.length b)%nat.
Proof. induction a as [| c a IH]; simpl; auto. Qed.

Lemma append_suffix_inj (a b q : string) :
  (a ++ q)%string = (b ++ q)%string -> a = b.
Proof.
  intros H.
  assert (L : String.length a = String.length b).
  { apply (f_equal String.length) in H.
    rewrite !string_length_append in H. lia. }
  revert b H L. induction a as [| c a IH]; intros [| d b] H L;
    simpl in *; try discriminate; auto.
  inversion H. f_equal. apply IH; auto.
Qed.

Lemma steps_facts (k : nat) w gs w' :
  steps (drop_step k) w gs w' ->
  tape (rand w') = tape (rand w) /\
  cursor (rand w') = (cursor (rand w) + k * List.length gs)%nat /\
  layer w' = layer w /\
  (exists rest, defs w' = defs w ++ rest) /\
  map gradient_tag_of (defs w')
  = map gradient_tag_of (defs w)
    ++ List.concat (repeat [LinearGradient; RadialGradient] (List.length gs)) /\
  Forall (references_resolved (defs w')) gs.
Proof.
  induction 1 as [w | w g w1 gs w2 S1 St IH].
  - simpl. rewrite app_nil_r. repeat split; auto; try lia.
    exists []. rewrite app_nil_r. reflexivity.
  - destruct IH as (T & C & L & (rest & D) & Tg & Rf).
    destruct S1 as (T1 & C1 & L1 & gs1 & gb1 & ids & idb & sh & bo & hl
                    & D1 & Ts & Tb & Is & Ib & Ch & Fs & Fb & Fh).
    repeat split.
    + congruence.
    + rewrite C, C1. simpl. lia.
    + congruence.
    + exists ([gs1; gb1] ++ rest). rewrite D, D1, <- app_assoc. reflexivity.
    + rewrite Tg, D1, map_app. simpl. rewrite Ts, Tb, <- app_assoc.
      reflexivity.
    + constructor; [| exact Rf].
      intros s id Hin Hf. rewrite Ch in Hin.
      assert (In1 : forall gr, In gr (defs w1) -> In gr (defs w2))
        by (intros gr Hg; rewrite D; apply in_or_app; left; exact Hg).
      destruct Hin as [<- | [<- | [<- | []]]].
      * rewrite Fs in Hf. inversion Hf as [Hid].
        apply append_suffix_inj in Hid. subst id.
        exists gs1. split; [| exact Is].
        apply In1. rewrite D1. apply in_or_app. right. left. reflexivity.
      * rewrite Fb in Hf. inversion Hf as [Hid].
        apply append_suffix_inj in Hid. subst id.
        exists gb1. split; [| exact Ib].
        apply In1. rewrite D1. apply in_or_app. right. right. left.
        reflexivity.
      * rewrite Fh in Hf. discriminate Hf.
Qed.

(** The body of [effect] raises exactly when at least one drop is asked
    for and the shadow angle or the highlight angle is infinite, in both
    variants: no other option value, NaN included, makes it raise. *)
Theorem effect_body_raises_iff :
  (forall o w,
     raises (SweatDrop.effect_body o) w <->
     (0 < SweatDrop.drop_count o)%Z /\
     (is_infinite (SweatDrop.shadow_angle o) \/
      is_infinite (SweatDrop.highlight_angle o))) /\
  (forall o w,
     raises (Teardrop.effect_body o) w <->
     (0 < Teardrop.drop_count o)%Z /\
     (is_infinite (Teardrop.shadow_angle o) \/
      is_infinite (Teardrop.highlight_angle o))).
Proof.
  split; intros o w; split.
  - intros (e & w' & H).
    destruct (Z_lt_le_dec 0 (SweatDrop.drop_count o)) as [Hc | Hc].
    + split; [exact Hc |].
      destruct (is_infinite_dec (SweatDrop.shadow_angle o)) as [Hs | Hs];
        [left; exact Hs |].
      destruct (is_infinite_dec (SweatDrop.highlight_angle o)) as [Hh | Hh];
        [right; exact Hh |].
      destruct (sweat_effect_steps o w Hs Hh) as (drops & w1 & E & _).
      rewrite E in H. discriminate.
    + unfold SweatDrop.effect_body in H. cbv zeta in H.
      replace (Z.to_nat (SweatDrop.drop_count o)) with 0%nat in H by lia.
      discriminate.
  - intros (Hc & Hi).
    unfold raises, SweatDrop.effect_body. cbv zeta.
    destruct (Z.to_nat (SweatDrop.drop_count o)) as [| n] eqn:En; [lia |].
    destruct (is_infinite_dec (SweatDrop.shadow_angle o)) as [Hs | Hs].
    + apply is_infinite_inv in Hs. destruct Hs as (s & Hs).
      pose proof (sweat_effect_body_raises o s w Hs Hc) as B.
      unfold SweatDrop.effect_body in B. cbv zeta in B. rewrite En in B.
      do 2 eexists. exact B.
    + destruct Hi as [Hi | Hi]; [contradiction |].
      apply is_infinite_inv in Hi. destruct Hi as (s & Hh).
      destruct (sweat_highlight_raises o s 0%Z (SweatDrop.drop_size o)
                  (SweatDrop.size_variation o) w Hs Hh)
        as (w' & gs & gb & E & _).
      do 2 eexists. apply bind_raise.
      apply (for_range_first_raises
               (fun i => SweatDrop.create_single_drop o i
                           (SweatDrop.drop_size o)
                           (SweatDrop.size_variation o))).
      exact E.
  - intros (e & w' & H).
    destruct (Z_lt_le_dec 0 (Teardrop.drop_count o)) as [Hc | Hc].
    + split; [exact Hc |].
      destruct (is_infinite_dec (Teardrop.shadow_angle o)) as [Hs | Hs];
        [left; exact Hs |].
      destruct (is_infinite_dec (Teardrop.highlight_angle o)) as [Hh | Hh];
        [right; exact Hh |].
      destruct (tear_effect_steps o w Hs Hh) as (drops & w1 & E & _).
      rewrite E in H. discriminate.
    + unfold Teardrop.effect_body in H. cbv zeta in H.
      replace (Z.to_nat (Teardrop.drop_count o)) with 0%nat in H by lia.
      discriminate.
  - intros (Hc & Hi).
    unfold raises, Teardrop.effect_body. cbv zeta.
    destruct (Z.to_nat (Teardrop.drop_count o)) as [| n] eqn:En; [lia |].
    destruct (is_infinite_dec (Teardrop.shadow_angle o)) as [Hs | Hs].
    + apply is_infinite_inv in Hs. destruct Hs as (s & Hs).
      pose proof (tear_effect_body_raises o s w Hs Hc) as B.
      unfold Teardrop.effect_body in B. cbv zeta in B. rewrite En in B.
      do 2 eexists. exact B.
    + destruct Hi as [Hi | Hi]; [contradiction |].
      apply is_infinite_inv in Hi. destruct Hi as (s & Hh).
      destruct (tear_highlight_raises o s 0%Z (Teardrop.drop_size o)
                  (Teardrop.size_variation o) w Hs Hh)
        as (w' & gs & gb & E & _).
      do 2 eexists. apply bind_raise.
      apply (for_range_first_raises
               (fun i => Teardrop.create_single_teardrop o i
                           (Teardrop.drop_size o)
                           (Teardrop.size_variation o))).
      exact E.
Qed.

(** What a swallowed exception leaves behind, in both variants, when at
    least one drop is asked for. With an infinite shadow angle [effect]
    returns with the layer and [defs] as they were. With an infinite
    highlight angle and a shadow angle that is not infinite it returns
    with the layer as it was, but with the linear and the radial gradient
    of the first drop added to [defs], which no shape refers to. *)
Theorem effect_leftovers_of_an_exception :
  (forall o s w,
     SweatDrop.shadow_angle o = Inf s -> (0 < SweatDrop.drop_count o)%Z ->
     exists w',
       SweatDrop.effect o w = (inr tt, w') /\
       layer w' = layer w /\ defs w' = defs w) /\
  (forall o s w,
     ~ is_infinite (SweatDrop.shadow_angle o) ->
     SweatDrop.highlight_angle o = Inf s -> (0 < SweatDrop.drop_count o)%Z ->
     exists w' gs gb,
       SweatDrop.effect o w = (inr tt, w') /\
       layer w' = layer w /\ defs w' = defs w ++ [gs; gb] /\
       gradient_tag_of gs = LinearGradient /\
       gradient_tag_of gb = RadialGradient) /\
  (forall o s w,
     Teardrop.shadow_angle o = Inf s -> (0 < Teardrop.drop_count o)%Z ->
     exists w',
       Teardrop.effect o w = (inr tt, w') /\
       layer w' = layer w /\ defs w' = defs w) /\
  (forall o s w,
     ~ is_infinite (Teardrop.shadow_angle o) ->
     Teardrop.highlight_angle o = Inf s -> (0 < Teardrop.drop_count o)%Z ->
     exists w' gs gb,
       Teardrop.effect o w = (inr tt, w') /\
       layer w' = layer w /\ defs w' = defs w ++ [gs; gb] /\
       gradient_tag_of gs = LinearGradient /\
       gradient_tag_of gb = RadialGradient).
Proof.
  split; [| split; [| split]].
  - intros o s w Hs Hc. eexists. split; [| split].
    + unfold SweatDrop.effect.
      apply (try_except_pass_swallows _ _ _ _
               (sweat_effect_body_raises o s w Hs Hc)).
    + reflexivity.
    + reflexivity.
  - intros o s w Hs Hh Hc.
    destruct (sweat_highlight_raises o s 0%Z (SweatDrop.drop_size o)
                (SweatDrop.size_variation o) w Hs Hh)
      as (w' & gs & gb & E & L & D & T).
    exists w', gs, gb. split; [| auto].
    unfold SweatDrop.effect.
    apply (try_except_pass_swallows _ _ _ (ValueError "math domain error")).
    unfold SweatDrop.effect_body. cbv zeta.
    destruct (Z.to_nat (SweatDrop.drop_count o)) as [| n] eqn:En; [lia |].
    apply bind_raise.
    apply (for_range_first_raises
             (fun i => SweatDrop.create_single_drop o i
                         (SweatDrop.drop_size o)
                         (SweatDrop.size_variation o))).
    exact E.
  - intros o s w Hs Hc. eexists. split; [| split].
    + unfold Teardrop.effect.
      apply (try_except_pass_swallows _ _ _ _
               (tear_effect_body_raises o s w Hs Hc)).
    + reflexivity.
    + reflexivity.
  - intros o s w Hs Hh Hc.
    destruct (tear_highlight_raises o s 0%Z (Teardrop.drop_size o)
                (Teardrop.size_variation o) w Hs Hh)
      as (w' & gs & gb & E & L & D & T).
    exists w', gs, gb. split; [| auto].
    unfold Teardrop.effect.
    apply (try_except_pass_swallows _ _ _ (ValueError "math domain error")).
    unfold Teardrop.effect_body. cbv zeta.
    destruct (Z.to_nat (Teardrop.drop_count o)) as [| n] eqn:En; [lia |].
    apply bind_raise.
    apply (for_range_first_raises
             (fun i => Teardrop.create_single_teardrop o i
                         (Teardrop.drop_size o)
                         (Teardrop.size_variation o))).
    exact E.
Qed.

(** For a count of 0 or less [range(count)] is empty: [effect] adds the
    main group without children to the layer and touches neither [defs]
    nor the generator, whatever the other options are. *)
Theorem effect_without_drops :
  (forall o w,
     (SweatDrop.drop_count o <= 0)%Z ->
     SweatDrop.effect o w
     = (inr tt,
        mkWorld (rand w) (defs w) (layer w ++ [mkGroup "Sweat Drops" []]))) /\
  (forall o w,
     (Teardrop.drop_count o <= 0)%Z ->
     Teardrop.effect o w
     = (inr tt,
        mkWorld (rand w) (defs w)
          (layer w ++ [mkGroup "Teardrop Sweat Drops" []]))).
Proof.
  split; intros o w Hc.
  - unfold SweatDrop.effect, try_except_pass, SweatDrop.effect_body.
    cbv zeta.
    replace (Z.to_nat (SweatDrop.drop_count o)) with 0%nat by lia.
    reflexivity.
  - unfold Teardrop.effect, try_except_pass, Teardrop.effect_body.
    cbv zeta.
    replace (Z.to_nat (Teardrop.drop_count o)) with 0%nat by lia.
    reflexivity.
Qed.

(** *** Whole runs *)

Lemma run_facts (k : nat) (name : string) (m : M world unit) w drops w1 n :
  m w = (inr tt,
         mkWorld (rand w1) (defs w1) (layer w1 ++ [mkGroup name drops])) ->
  List.length drops = n ->
  steps (drop_step k) w drops w1 ->
  exists w',
    try_except_pass m w = (inr tt, w') /\
    layer w' = layer w ++ [mkGroup name drops] /\
    tape (rand w') = tape (rand w) /\
    cursor (rand w') = (cursor (rand w) + k * n)%nat /\
    (exists added,
       defs w' = defs w ++ added /\
       map gradient_tag_of added
       = List.concat (repeat [LinearGradient; RadialGradient] n)) /\
    Forall (references_resolved (defs w')) drops.
Proof.
  intros E L St.
  destruct (steps_facts k w drops w1 St) as (T & C & Ly & (rest & D) & Tg & Rf).
  eexists. split; [apply try_except_pass_returns, E |]. cbn [layer rand defs].
  rewrite L in *.
  split; [congruence |]. split; [exact T |]. split; [exact C |].
  split; [| exact Rf].
  exists rest. split; [exact D |].
  rewrite D, map_app in Tg. apply app_inv_head in Tg. exact Tg.
Qed.

(** A run with angles that are not infinite adds exactly two gradients
    per drop to [defs], after the ones that were there: a linear one
    and a radial one, drop by drop. *)
Theorem run_adds_two_gradients_per_drop :
  (forall o w,
     ~ is_infinite (SweatDrop.shadow_angle o) ->
     ~ is_infinite (SweatDrop.highlight_angle o) ->
     exists added,
       defs (snd (SweatDrop.effect o w)) = defs w ++ added /\
       map gradient_tag_of added
       = List.concat (repeat [LinearGradient; RadialGradient]
                        (Z.to_nat (SweatDrop.drop_count o)))) /\
  (forall o w,
     ~ is_infinite (Teardrop.shadow_angle o) ->
     ~ is_infinite (Teardrop.highlight_angle o) ->
     exists added,
       defs (snd (Teardrop.effect o w)) = defs w ++ added /\
       map gradient_tag_of added
       = List.concat (repeat [LinearGradient; RadialGradient]
                        (Z.to_nat (Teardrop.drop_count o)))).
Proof.
  split; intros o w Hs Hh.
  - destruct (sweat_effect_steps o w Hs Hh) as (drops & w1 & E & L & St).
    destruct (run_facts 5 _ _ _ _ _ _ E L St) as (w' & Ee & _ & _ & _ & A & _).
    unfold SweatDrop.effect. rewrite Ee. exact A.
  - destruct (tear_effect_steps o w Hs Hh) as (drops & w1 & E & L & St).
    destruct (run_facts 6 _ _ _ _ _ _ E L St) as (w' & Ee & _ & _ & _ & A & _).
    unfold Teardrop.effect. rewrite Ee. exact A.
Qed.

(** A run with angles that are not infinite takes exactly five draws
    per drop from the generator in the ellipse variant (size, x, y and
    the two gradient identifiers) and six in the teardrop variant (the
    rotation as well), and leaves the tape as it is. *)
Theorem run_consumes_draws :
  (forall o w,
     ~ is_infinite (SweatDrop.shadow_angle o) ->
     ~ is_infinite (SweatDrop.highlight_angle o) ->
     let w' := snd (SweatDrop.effect o w) in
     tape (rand w') = tape (rand w) /\
     cursor (rand w')
     = (cursor (rand w) + 5 * Z.to_nat (SweatDrop.drop_count o))%nat) /\
  (forall o w,
     ~ is_infinite (Teardrop.shadow_angle o) ->
     ~ is_infinite (Teardrop.highlight_angle o) ->
     let w' := snd (Teardrop.effect o w) in
     tape (rand w') = tape (rand w) /\
     cursor (rand w')
     = (cursor (rand w) + 6 * Z.to_nat (Teardrop.drop_count o))%nat).
Proof.
  split; intros o w Hs Hh.
  - destruct (sweat_effect_steps o w Hs Hh) as (drops & w1 & E & L & St).
    destruct (run_facts 5 _ _ _ _ _ _ E L St) as (w' & Ee & _ & T & C & _).
    unfold SweatDrop.effect. rewrite Ee. split; assumption.
  - destruct (tear_effect_steps o w Hs Hh) as (drops & w1 & E & L & St).
    destruct (run_facts 6 _ _ _ _ _ _ E L St) as (w' & Ee & _ & T & C & _).
    unfold Teardrop.effect. rewrite Ee. split; assumption.
Qed.

(** After a run with angles that are not infinite every [url(#id)] fill
    of a shape of the new drop groups names a gradient that is in [defs]:
    the run leaves no dangling gradient reference. *)
Theorem run_resolves_gradient_references :
  (forall o w,
     ~ is_infinite (SweatDrop.shadow_angle o) ->
     ~ is_infinite (SweatDrop.highlight_angle o) ->
     exists drops,
       layer (snd (SweatDrop.effect o w))
       = layer w ++ [mkGroup "Sweat Drops" drops] /\
       Forall (references_resolved (defs (snd (SweatDrop.effect o w))))
         drops) /\
  (forall o w,
     ~ is_infinite (Teardrop.shadow_angle o) ->
     ~ is_infinite (Teardrop.highlight_angle o) ->
     exists drops,
       layer (snd (Teardrop.effect o w))
       = layer w ++ [mkGroup "Teardrop Sweat Drops" drops] /\
       Forall (references_resolved (defs (snd (Teardrop.effect o w))))
         drops).
Proof.
  split; intros o w Hs Hh.
  - destruct (sweat_effect_steps o w Hs Hh) as (drops & w1 & E & L & St).
    destruct (run_facts 5 _ _ _ _ _ _ E L St) as (w' & Ee & Ly & _ & _ & _ & R).
    exists drops. unfold SweatDrop.effect. rewrite Ee. split; assumption.
  - destruct (tear_effect_steps o w Hs Hh) as (drops & w1 & E & L & St).
    destruct (run_facts 6 _ _ _ _ _ _ E L St) as (w' & Ee & Ly & _ & _ & _ & R).
    exists drops. unfold Teardrop.effect. rewrite Ee. split; assumption.
Qed.

Lemma for_range_label {A} (create : Z -> M world A) n :
  forall start (acc : group A) w main_group w',
    for_range n start
      (fun i main_group => g <- create i ;; ret (add main_group g)) acc w
    = (inr main_group, w') ->
    label main_group = label acc.
Proof.
  induction n as [| n IH]; intros start acc w mg w' E.
  - inversion E. reflexivity.
  - cbn [for_range] in E. apply bind_inr in E.
    destruct E as (acc1 & w1 & E1 & E).
    apply bind_inr in E1. destruct E1 as (g & w0 & _ & E1).
    inversion E1; subst. apply IH in E. exact E.
Qed.

(** [effect] only appends to the layer: in both variants and for every
    option value the children that were in the layer stay in place, and
    at most one group is added after them, the main group of the run. *)
Theorem effect_appends_at_most_one_group :
  (forall o w,
     layer (snd (SweatDrop.effect o w)) = layer w \/
     exists drops,
       layer (snd (SweatDrop.effect o w))
       = layer w ++ [mkGroup "Sweat Drops" drops]) /\
  (forall o w,
     layer (snd (Teardrop.effect o w)) = layer w \/
     exists drops,
       layer (snd (Teardrop.effect o w))
       = layer w ++ [mkGroup "Teardrop Sweat Drops" drops]).
Proof.
  split; intros o w.
  - unfold SweatDrop.effect, try_except_pass, SweatDrop.effect_body, bind.
    cbv zeta.
    match goal with
    | |- context [for_range ?n ?s ?b ?a w] =>
        destruct (for_range n s b a w) as [[e | mg] w1] eqn:E
    end.
    + left. apply (sweat_loop_frame o _ _ _ E).
    + right. simpl.
      destruct (sweat_loop_frame o _ _ _ E) as (_ & Ly & _).
      rewrite Ly.
      apply (for_range_label
               (fun i => SweatDrop.create_single_drop o i
                           (SweatDrop.drop_size o)
                           (SweatDrop.size_variation o))) in E.
      destruct mg as [lb ch]. simpl in E. subst lb. exists ch. reflexivity.
  - unfold Teardrop.effect, try_except_pass, Teardrop.effect_body, bind.
    cbv zeta.
    match goal with
    | |- context [for_range ?n ?s ?b ?a w] =>
        destruct (for_range n s b a w) as [[e | mg] w1] eqn:E
    end.
    + left. apply (tear_loop_frame o _ _ _ E).
    + right. simpl.
      destruct (tear_loop_frame o _ _ _ E) as (_ & Ly & _).
      rewrite Ly.
      apply (for_range_label
               (fun i => Teardrop.create_single_teardrop o i
                           (Teardrop.drop_size o)
                           (Teardrop.size_variation o))) in E.
      destruct mg as [lb ch]. simpl in E. subst lb. exists ch. reflexivity.
Qed.

(** *** Labels and identifiers *)

Lemma to_int_proper (n : Z) :
  Z.to_int n <> Decimal.Pos Decimal.Nil /\
  Z.to_int n <> Decimal.Neg Decimal.Nil.
Proof.
  destruct n as [| p | p]; simpl; split; try discriminate;
    intro H; inversion H as [E];
    apply (DecimalPos.Unsigned.to_uint_nonnil p E).
Qed.

Lemma str_int_inj (n m : Z) : str_int n = str_int m -> n = m.
Proof.
  unfold str_int. intros H. apply DecimalZ.to_int_inj.
  apply (f_equal NilZero.int_of_string) in H.
  rewrite !NilZero.isi in H by apply to_int_proper.
  inversion H. reflexivity.
Qed.

Lemma labels_by_index {A} (f : nat -> string) :
  forall (l : list (group A)) (start : nat),
    (forall k g, nth_error l k = Some g -> label g = f (start + k)%nat) ->
    map label l = map f (seq start (List.length l)).
Proof.
  induction l as [| g l IH]; intros start H; simpl; [reflexivity |].
  f_equal.
  - rewrite (H 0%nat g eq_refl). f_equal. lia.
  - apply IH. intros k g' Hk.
    rewrite (H (S k) g' Hk). f_equal. lia.
Qed.

Lemma NoDup_map_seq (f : nat -> string) start n :
  (forall i j, f i = f j -> i = j) -> NoDup (map f (seq start n)).
Proof.
  intros Hf. apply Injective_map_NoDup; [exact Hf | apply seq_NoDup].
Qed.

(** In a run with finite angles the drop groups are labelled [Drop_1],
    [Drop_2], ... in order ([Teardrop_1], ... in the teardrop variant),
    so that no two drop groups of a run share a label. *)
Theorem drop_labels_are_distinct :
  (forall o w,
     is_finite (SweatDrop.shadow_angle o) ->
     is_finite (SweatDrop.highlight_angle o) ->
     exists drops,
       layer (snd (SweatDrop.effect o w))
       = layer w ++ [mkGroup "Sweat Drops" drops] /\
       map label drops
       = map (fun k => ("Drop_" ++ str_int (Z.of_nat k + 1))%string)
           (seq 0 (Z.to_nat (SweatDrop.drop_count o))) /\
       NoDup (map label drops)) /\
  (forall o w,
     is_finite (Teardrop.shadow_angle o) ->
     is_finite (Teardrop.highlight_angle o) ->
     exists drops,
       layer (snd (Teardrop.effect o w))
       = layer w ++ [mkGroup "Teardrop Sweat Drops" drops] /\
       map label drops
       = map (fun k => ("Teardrop_" ++ str_int (Z.of_nat k + 1))%string)
           (seq 0 (Z.to_nat (Teardrop.drop_count o))) /\
       NoDup (map label drops)).
Proof.
  split; intros o w Hs Hh.
  - destruct (sweat_effect_drops o w (finite_inv _ Hs) (finite_inv _ Hh))
      as (drops & w' & E & L & Len & Hn).
    assert (M : map label drops
                = map (fun k => ("Drop_" ++ str_int (Z.of_nat k + 1))%string)
                    (seq 0 (Z.to_nat (SweatDrop.drop_count o)))).
    { rewrite <- Len. apply labels_by_index. intros k g Hk.
      apply Hn in Hk. simpl. apply Hk. }
    exists drops. unfold SweatDrop.effect.
    rewrite (try_except_pass_returns _ _ _ E).
    split; [exact L |]. split; [exact M |].
    rewrite M. apply NoDup_map_seq. intros i j Hij.
    apply append_prefix_inj, str_int_inj in Hij. lia.
  - destruct (tear_effect_drops o w (finite_inv _ Hs) (finite_inv _ Hh))
      as (drops & w' & E & L & Len & Hn).
    assert (M : map label drops
                = map (fun k =>
                         ("Teardrop_" ++ str_int (Z.of_nat k + 1))%string)
                    (seq 0 (Z.to_nat (Teardrop.drop_count o)))).
    { rewrite <- Len. apply labels_by_index. intros k g Hk.
      apply Hn in Hk. simpl. apply Hk. }
    exists drops. unfold Teardrop.effect.
    rewrite (try_except_pass_returns _ _ _ E).
    split; [exact L |]. split; [exact M |].
    rewrite M. apply NoDup_map_seq. intros i j Hij.
    apply append_prefix_inj, str_int_inj in Hij. lia.
Qed.

(** Two calls of a gradient constructor return the same identifier
    exactly when [randint] draws the same number in both: the drawn
    number can be read back from the identifier, and nothing else makes
    the identifiers of the shadow gradients, or those of the body
    gradients, differ. *)
Theorem gradient_ids_collide_iff_draws_coincide :
  (forall o w1 w2,
     fst (SweatDrop.create_shadow_gradient o w1)
     = fst (SweatDrop.create_shadow_gradient o w2)
     <-> id_draw w1 = id_draw w2) /\
  (forall w1 w2,
     fst (SweatDrop.create_drop_gradient w1)
     = fst (SweatDrop.create_drop_gradient w2)
     <-> id_draw w1 = id_draw w2) /\
  (forall o w1 w2,
     fst (Teardrop.create_shadow_gradient o w1)
     = fst (Teardrop.create_shadow_gradient o w2)
     <-> id_draw w1 = id_draw w2) /\
  (forall w1 w2,
     fst (Teardrop.create_drop_gradient w1)
     = fst (Teardrop.create_drop_gradient w2)
     <-> id_draw w1 = id_draw w2).
Proof.
  split; [| split; [| split]]; intros; split; intro H.
  - rewrite !sweat_shadow_gradient_run in H. simpl in H.
    inversion H as [E]. apply str_int_inj in E. exact E.
  - rewrite !sweat_shadow_gradient_run. simpl. rewrite H. reflexivity.
  - rewrite !sweat_drop_gradient_run in H. simpl in H.
    inversion H as [E]. apply str_int_inj in E. exact E.
  - rewrite !sweat_drop_gradient_run. simpl. rewrite H. reflexivity.
  - rewrite !tear_shadow_gradient_run in H. simpl in H.
    inversion H as [E]. apply str_int_inj in E. exact E.
  - rewrite !tear_shadow_gradient_run. simpl. rewrite H. reflexivity.
  - rewrite !tear_drop_gradient_run in H. simpl in H.
    inversion H as [E]. apply str_int_inj in E. exact E.
  - rewrite !tear_drop_gradient_run. simpl. rewrite H. reflexivity.
Qed.

(** *** Geometry of the ellipse drops *)

Lemma cos2_sin2 (t : R) : cos t * cos t + sin t * sin t = 1.
Proof. pose proof (sin2_cos2 t) as H. unfold Rsqr in H. lra. Qed.

(** In the ellipse variant, for a finite position, size, distance and
    shadow angle, the shadow is the ellipse of the body moved by exactly
    the shadow distance: both have the same radii, and the distance of
    their centres is [|shadow_distance|]. *)
Theorem shadow_is_the_body_displaced :
  forall o x y size a d w,
    SweatDrop.shadow_angle o = Fin a ->
    SweatDrop.shadow_distance o = Fin d ->
    exists shadow body w1 w2 sx sy,
      SweatDrop.create_shadow o (Fin x) (Fin y) (Fin size) w
      = (inr shadow, w1) /\
      SweatDrop.create_main_drop o (Fin x) (Fin y) (Fin size) w1
      = (inr body, w2) /\
      get "cx" (attrib shadow) = Some (Num (Fin sx)) /\
      get "cy" (attrib shadow) = Some (Num (Fin sy)) /\
      get "rx" (attrib shadow) = get "rx" (attrib body) /\
      get "ry" (attrib shadow) = get "ry" (attrib body) /\
      get "cx" (attrib body) = Some (Num (Fin x)) /\
      get "cy" (attrib body) = Some (Num (Fin y)) /\
      (sx - x) * (sx - x) + (sy - y) * (sy - y) = d * d.
Proof.
  intros o x y size a d w Ha Hd.
  do 6 eexists.
  split; [apply (sweat_create_shadow_run o a Ha) |].
  split; [apply sweat_create_main_drop_run |].
  rewrite Hd. cbn [attrib fadd fmul].
  repeat (split; [reflexivity |]).
  pose proof (cos2_sin2 (a * (PI / 180))) as T.
  set (c := cos (a * (PI / 180))) in *.
  set (s := sin (a * (PI / 180))) in *.
  replace ((x + c * d - x) * (x + c * d - x)
           + (y + s * d - y) * (y + s * d - y))
    with (d * d * (c * c + s * s)) by ring.
  rewrite T. ring.
Qed.

(** In the ellipse variant, for a finite position, size and highlight
    angle, the centre [(hx, hy)] of the highlight lies inside the body:
    it is on the circle of radius [0.3 * size] about the centre of the
    body, hence within the ellipse with half the radii of the body,
    [((hx - x) / rx)^2 + ((hy - y) / ry)^2 <= 1/4] in the form without
    division. The highlight adds nothing to [defs] and draws nothing. *)
Theorem highlight_lies_inside_the_body :
  forall o x y size h w,
    SweatDrop.highlight_angle o = Fin h ->
    exists highlight hx hy,
      SweatDrop.create_highlight o (Fin x) (Fin y) (Fin size) w
      = (inr highlight, w) /\
      get "cx" (attrib highlight) = Some (Num (Fin hx)) /\
      get "cy" (attrib highlight) = Some (Num (Fin hy)) /\
      (hx - x) * (hx - x) + (hy - y) * (hy - y)
      = (size * (3 / 10)) * (size * (3 / 10)) /\
      let rx := size * (6 / 10) in
      let ry := size * (8 / 10) in
      (hx - x) * (hx - x) * (ry * ry) + (hy - y) * (hy - y) * (rx * rx)
      <= 1 / 4 * (rx * rx) * (ry * ry).
Proof.
  intros o x y size h w Hh.
  do 3 eexists.
  split; [apply (sweat_create_highlight_run o h Hh) |].
  cbn [attrib fadd fmul].
  split; [reflexivity |]. split; [reflexivity |].
  pose proof (cos2_sin2 (h * (PI / 180))) as T.
  set (c := cos (h * (PI / 180))) in *.
  set (s := sin (h * (PI / 180))) in *.
  split.
  - replace ((x + c * (size * (3 / 10)) - x) * (x + c * (size * (3 / 10)) - x)
             + (y + s * (size * (3 / 10)) - y)
               * (y + s * (size * (3 / 10)) - y))
      with (size * (3 / 10) * (size * (3 / 10)) * (c * c + s * s)) by ring.
    rewrite T. ring.
  - cbv zeta.
    assert (Hc : c * c = 1 - s * s) by lra.
    replace ((x + c * (size * (3 / 10)) - x) * (x + c * (size * (3 / 10)) - x)
             * (size * (8 / 10) * (size * (8 / 10)))
             + (y + s * (size * (3 / 10)) - y)
               * (y + s * (size * (3 / 10)) - y)
               * (size * (6 / 10) * (size * (6 / 10))))
      with ((size * size) * (size * size) * (9 / 100)
            * ((64 / 100) * (c * c) + (36 / 100) * (s * s))) by field.
    rewrite Hc.
    replace (1 / 4 * (size * (6 / 10) * (size * (6 / 10)))
             * (size * (8 / 10) * (size * (8 / 10))))
      with ((size * size) * (size * size) * (9 / 100) * (64 / 100)) by field.
    assert (P : 0 <= (size * size) * (size * size) * (s * s)).
    { replace ((size * size) * (size * size) * (s * s))
        with ((size * size * s) * (size * size * s)) by ring.
      apply Rle_0_sqr. }
    lra.
Qed.

(** *** Geometry of the teardrop outline *)

Ltac outline_points :=
  cbn [outline path_of attrib get String.eqb Ascii.eqb Bool.eqb
       Teardrop.create_teardrop_path coords real_coords real_of
       fadd fsub fmul fneg map fst snd].

(** In the teardrop variant, for finite values, the outline of the shadow
    is the outline of the body moved by the shadow offset
    [(cos(radians(shadow_angle)) * shadow_distance,
      sin(radians(shadow_angle)) * shadow_distance)], point by point. *)
Theorem teardrop_shadow_is_the_body_translated :
  forall o x y size rotation a d k w,
    Teardrop.shadow_angle o = Fin a ->
    Teardrop.shadow_distance o = Fin d ->
    Teardrop.teardrop_ratio o = Fin k ->
    exists shadow body w1 w2 pts,
      Teardrop.create_teardrop_shadow o (Fin x) (Fin y) (Fin size) rotation w
      = (inr shadow, w1) /\
      Teardrop.create_teardrop_main o (Fin x) (Fin y) (Fin size) rotation w1
      = (inr body, w2) /\
      outline body = Some pts /\
      outline shadow
      = Some (map (fun p => (fst p + cos (a * (PI / 180)) * d,
                             snd p + sin (a * (PI / 180)) * d)) pts).
Proof.
  intros o x y size rotation a d k w Ha Hd Hk.
  do 5 eexists.
  split; [apply (tear_create_shadow_run o a Ha) |].
  split; [apply tear_create_main_run |].
  rewrite Hd. unfold outline, path_of, Teardrop.create_teardrop_path.
  rewrite Hk. outline_points.
  split; [reflexivity |].
  outline_points. repeat (f_equal; try field).
Qed.

(** In the teardrop variant, for finite values, the outline of the
    highlight is the outline of the body scaled by [highlight_size] about
    the centre of the drop and moved to the centre of the highlight,
    which is [0.2 * size] away in the direction of the highlight angle. *)
Theorem teardrop_highlight_is_the_body_scaled :
  forall o x y size rotation h hs k w,
    Teardrop.highlight_angle o = Fin h ->
    Teardrop.highlight_size o = Fin hs ->
    Teardrop.teardrop_ratio o = Fin k ->
    exists highlight body w2 pts,
      Teardrop.create_teardrop_highlight o (Fin x) (Fin y) (Fin size)
        rotation w
      = (inr highlight, w) /\
      Teardrop.create_teardrop_main o (Fin x) (Fin y) (Fin size) rotation w
      = (inr body, w2) /\
      outline body = Some pts /\
      let hx := x + cos (h * (PI / 180)) * (size * (2 / 10)) in
      let hy := y + sin (h * (PI / 180)) * (size * (2 / 10)) in
      outline highlight
      = Some (map (fun p => (hx + hs * (fst p - x),
                             hy + hs * (snd p - y))) pts).
Proof.
  intros o x y size rotation h hs k w Hh Hs Hk.
  do 4 eexists.
  split; [apply (tear_create_highlight_run o h Hh) |].
  split; [apply tear_create_main_run |].
  rewrite Hs. unfold outline, path_of, Teardrop.create_teardrop_path.
  rewrite Hk. outline_points.
  split; [reflexivity |].
  cbv zeta. outline_points. repeat (f_equal; try field).
Qed.

(** For finite values the outline of [create_teardrop_path] is mirror
    symmetric about the vertical line through its centre: read from the
    end, with every [x] coordinate reflected at the centre, the thirteen
    points are the same points. *)
Theorem teardrop_outline_is_symmetric :
  forall o x y size rotation k,
    Teardrop.teardrop_ratio o = Fin k ->
    exists pts,
      real_coords
        (coords (Teardrop.create_teardrop_path o (Fin x) (Fin y) (Fin size)
                   rotation))
      = Some pts /\
      rev (map (fun p => (2 * x - fst p, snd p)) pts) = pts.
Proof.
  intros o x y size rotation k Hk.
  unfold Teardrop.create_teardrop_path. rewrite Hk. outline_points.
  eexists. split; [reflexivity |].
  cbn [map rev app fst snd]. repeat (f_equal; try field).
Qed.

(** For a finite centre, a size and a ratio that are not negative, all
    points of the outline lie in the box of width [0.6 * size] and
    height [size * teardrop_ratio] that reaches from [0.7] of the height
    above the centre to [0.3] of the height below it. *)
Theorem teardrop_outline_bounding_box :
  forall o x y size rotation k,
    Teardrop.teardrop_ratio o = Fin k ->
    0 <= size -> 0 <= k ->
    exists pts,
      real_coords
        (coords (Teardrop.create_teardrop_path o (Fin x) (Fin y) (Fin size)
                   rotation))
      = Some pts /\
      Forall (fun p =>
                x - size * (6 / 10) / 2 <= fst p <= x + size * (6 / 10) / 2 /\
                y - size * k * (7 / 10) <= snd p <= y + size * k * (3 / 10))
        pts.
Proof.
  intros o x y size rotation k Hk Hs H0.
  unfold Teardrop.create_teardrop_path. rewrite Hk. outline_points.
  eexists. split; [reflexivity |].
  assert (Hh : 0 <= size * k) by (apply Rmult_le_pos; assumption).
  set (hgt := size * k) in *.
  repeat (constructor; [cbn [fst snd]; lra |]). constructor.
Qed.

(** For finite values the outline is smooth where two of its cubic
    segments meet at the sides and where it closes at the bottom: there
    the last control point of one segment, the common end point and the
    first control point of the next segment are equally spaced on a line.
    At the top the two neighbouring control points are mirror images of
    each other instead, which makes the tip. *)
Theorem teardrop_outline_joins :
  forall o x y size rotation k,
    Teardrop.teardrop_ratio o = Fin k ->
    exists p0 p1 p2 p3 p4 p5 p6 p7 p8 p9 p10 p11 p12,
      real_coords
        (coords (Teardrop.create_teardrop_path o (Fin x) (Fin y) (Fin size)
                   rotation))
      = Some [p0; p1; p2; p3; p4; p5; p6; p7; p8; p9; p10; p11; p12] /\
      (fst p3 - fst p2 = fst p4 - fst p3 /\
       snd p3 - snd p2 = snd p4 - snd p3) /\
      (fst p9 - fst p8 = fst p10 - fst p9 /\
       snd p9 - snd p8 = snd p10 - snd p9) /\
      (fst p12 - fst p11 = fst p1 - fst p0 /\
       snd p12 - snd p11 = snd p1 - snd p0) /\
      (fst p6 - fst p5 = fst p7 - fst p6 /\
       snd p6 - snd p5 = - (snd p7 - snd p6)).
Proof.
  intros o x y size rotation k Hk.
  unfold Teardrop.create_teardrop_path. rewrite Hk. outline_points.
  do 13 eexists. split; [reflexivity |].
  cbn [fst snd]. repeat split; field.
Qed.

(** *** What is drawn *)

Lemma uniform_between (a b r : R) :
  0 <= r < 1 ->
  Rmin a b <= a + (b + - a) * r <= Rmax a b.
Proof.
  intros [H0 H1]. unfold Rmin, Rmax.
  destruct (Rle_dec a b) as [L | L]; split; nra.
Qed.

(** The rotation of a teardrop is drawn from
    [[-rotation_variation, rotation_variation]]: for a finite variation
    [v >= 0] the constructor builds the drop with a finite rotation [t]
    with [-v <= t <= v], both ends included. *)
Theorem teardrop_rotation_range :
  forall o index base sv w v,
    Teardrop.rotation_variation o = Fin v -> 0 <= v ->
    exists x y size t w',
      Teardrop.create_single_teardrop o index base sv w
      = Teardrop.build_drop_group o index x y size (Fin t) w' /\
      - v <= t <= v.
Proof.
  intros o index base sv w v Hv H0.
  exists (fadd (Fin 0)
            (fmul (fsub (Teardrop.area_width o) (Fin 0))
               (Fin (unit_draw (tick w))))),
    (fadd (Fin 0)
       (fmul (fsub (Teardrop.area_height o) (Fin 0))
          (Fin (unit_draw (tick (tick w)))))),
    (fmul base
       (fadd (Fin 1)
          (fadd (fneg sv) (fmul (fsub sv (fneg sv)) (Fin (unit_draw w)))))),
    (- v + (v + - - v) * unit_draw (tick (tick (tick w)))),
    (tick (tick (tick (tick w)))).
  split.
  - rewrite tear_create_single_teardrop_run, Hv. reflexivity.
  - pose proof (unit_draw_range (tick (tick (tick w)))) as [R0 R1].
    split; nra.
Qed.

(** With a rotation variation of 0 no shape of a teardrop carries a
    transform, whatever the generator returns. *)
Theorem no_rotation_variation_no_transform :
  forall o index base sv w g w',
    Teardrop.rotation_variation o = Fin 0 ->
    Teardrop.create_single_teardrop o index base sv w = (inr g, w') ->
    List.length (children g) = 3%nat /\
    Forall (fun s => transform s = None) (children g).
Proof.
  intros o index base sv w g w' Hv H.
  rewrite tear_create_single_teardrop_run, Hv in H.
  cbn [fneg fsub fadd fmul] in H.
  replace (- 0 + (0 + - - 0) * unit_draw (tick (tick (tick w)))) with 0 in H
    by ring.
  unfold Teardrop.build_drop_group in H. cbv zeta in H.
  apply bind_inr in H. destruct H as (sh & w1 & E1 & H).
  apply bind_inr in H. destruct H as (bo & w2 & E2 & H).
  apply bind_inr in H. destruct H as (hl & w3 & E3 & H).
  inversion H; subst. split; [reflexivity |].
  unfold Teardrop.create_teardrop_shadow in E1. cbv zeta in E1.
  apply bind_inr in E1. destruct E1 as (c & u1 & _ & E1).
  apply bind_inr in E1. destruct E1 as (s & u2 & _ & E1).
  apply bind_inr in E1. destruct E1 as (id & u3 & _ & E1).
  unfold Teardrop.create_teardrop_main in E2. cbv zeta in E2.
  apply bind_inr in E2. destruct E2 as (id2 & u4 & _ & E2).
  unfold Teardrop.create_teardrop_highlight in E3. cbv zeta in E3.
  apply bind_inr in E3. destruct E3 as (c3 & u5 & _ & E3).
  apply bind_inr in E3. destruct E3 as (s3 & u6 & _ & E3).
  inversion E1; inversion E2; inversion E3; subst.
  cbn [children add app].
  repeat constructor; cbn [transform]; apply rotate_about_zero.
Qed.

(** With a size variation of 0 every drop has exactly the base size,
    whatever the generator returns, in both variants. *)
Theorem no_size_variation_exact_size :
  (forall o index b w,
     exists x y w',
       SweatDrop.create_single_drop o index (Fin b) (Fin 0) w
       = SweatDrop.build_drop_group o index x y (Fin b) w') /\
  (forall o index b w,
     exists x y rotation w',
       Teardrop.create_single_teardrop o index (Fin b) (Fin 0) w
       = Teardrop.build_drop_group o index x y (Fin b) rotation w').
Proof.
  split; intros o index b w.
  - do 3 eexists. rewrite sweat_create_single_drop_run.
    cbn [fneg fsub fadd fmul].
    replace (b * (1 + (- 0 + (0 + - - 0) * unit_draw w))) with b by ring.
    reflexivity.
  - do 4 eexists. rewrite tear_create_single_teardrop_run.
    cbn [fneg fsub fadd fmul].
    replace (b * (1 + (- 0 + (0 + - - 0) * unit_draw w))) with b by ring.
    reflexivity.
Qed.

(** Negative option values are taken as they are. For every finite size
    variation [v] the factor [u] drawn for the size lies between [-v] and
    [v] in whichever order they come, and for every finite area the
    position lies between 0 and the side, the ends included; for a
    negative [area_width] the drop is placed at [area_width <= x <= 0]. *)
Theorem drawn_values_lie_between_the_bounds :
  (forall o index b v w W H,
     SweatDrop.area_width o = Fin W -> SweatDrop.area_height o = Fin H ->
     exists u x y w',
       SweatDrop.create_single_drop o index (Fin b) (Fin v) w
       = SweatDrop.build_drop_group o index (Fin x) (Fin y)
           (Fin (b * (1 + u))) w' /\
       Rmin (- v) v <= u <= Rmax (- v) v /\
       Rmin 0 W <= x <= Rmax 0 W /\
       Rmin 0 H <= y <= Rmax 0 H /\
       (W < 0 -> W <= x <= 0)) /\
  (forall o index b v w W H,
     Teardrop.area_width o = Fin W -> Teardrop.area_height o = Fin H ->
     exists u x y rotation w',
       Teardrop.create_single_teardrop o index (Fin b) (Fin v) w
       = Teardrop.build_drop_group o index (Fin x) (Fin y)
           (Fin (b * (1 + u))) rotation w' /\
       Rmin (- v) v <= u <= Rmax (- v) v /\
       Rmin 0 W <= x <= Rmax 0 W /\
       Rmin 0 H <= y <= Rmax 0 H /\
       (W < 0 -> W <= x <= 0)).
Proof.
  split; intros o index b v w W H HW HH.
  - exists (- v + (v + - - v) * unit_draw w),
      (0 + (W + - 0) * unit_draw (tick w)),
      (0 + (H + - 0) * unit_draw (tick (tick w))).
    eexists. split.
    + rewrite sweat_create_single_drop_run, HW, HH. reflexivity.
    + pose proof (unit_draw_range w) as R0.
      pose proof (unit_draw_range (tick w)) as R1.
      pose proof (unit_draw_range (tick (tick w))) as R2.
      split; [apply uniform_between, R0 |].
      split; [apply uniform_between, R1 |].
      split; [apply uniform_between, R2 |].
      intro. split; nra.
  - exists (- v + (v + - - v) * unit_draw w),
      (0 + (W + - 0) * unit_draw (tick w)),
      (0 + (H + - 0) * unit_draw (tick (tick w))).
    do 2 eexists. split.
    + rewrite tear_create_single_teardrop_run, HW, HH. reflexivity.
    + pose proof (unit_draw_range w) as R0.
      pose proof (unit_draw_range (tick w)) as R1.
      pose proof (unit_draw_range (tick (tick w))) as R2.
      split; [apply uniform_between, R0 |].
      split; [apply uniform_between, R1 |].
      split; [apply uniform_between, R2 |].
      intro. split; nra.
Qed.

(** ** The further properties at concrete inputs *)

Lemma default_angles_not_infinite :
  ~ is_infinite (SweatDrop.shadow_angle SweatDrop.default_options) /\
  ~ is_infinite (SweatDrop.highlight_angle SweatDrop.default_options).
Proof. split; intro H; exact H. Qed.

Lemma effect_body_raises_iff_witness :
  raises (SweatDrop.effect_body infinite_highlight_options) (empty_world 0) /\
  ~ raises (SweatDrop.effect_body SweatDrop.default_options) (empty_world 0).
Proof.
  split.
  - apply (proj1 effect_body_raises_iff). split; [reflexivity |].
    right. exact I.
  - intro H. apply (proj1 effect_body_raises_iff) in H.
    destruct H as (_ & [H | H]); exact H.
Defined.

Lemma effect_leftovers_of_an_exception_witness :
  (exists w',
     SweatDrop.effect infinite_angle_options (empty_world 0) = (inr tt, w') /\
     layer w' = [] /\ defs w' = []) /\
  (exists w' gs gb,
     SweatDrop.effect infinite_highlight_options (empty_world 0)
     = (inr tt, w') /\
     layer w' = [] /\ defs w' = [gs; gb]).
Proof.
  destruct effect_leftovers_of_an_exception as (A & B & _).
  split.
  - apply (A infinite_angle_options false (empty_world 0));
      [reflexivity | reflexivity].
  - destruct (B infinite_highlight_options false (empty_world 0))
      as (w' & gs & gb & E & L & D & _);
      [intro H; exact H | reflexivity | reflexivity |].
    exists w', gs, gb. auto.
Defined.

Lemma effect_without_drops_witness :
  SweatDrop.effect negative_count_options (empty_world 0)
  = (inr tt, mkWorld (constant_rng 0) [] [mkGroup "Sweat Drops" []]).
Proof.
  apply (proj1 effect_without_drops negative_count_options (empty_world 0)).
  simpl. lia.
Defined.

Lemma run_adds_two_gradients_per_drop_witness :
  exists added,
    defs (snd (SweatDrop.effect SweatDrop.default_options (empty_world 0)))
    = added /\
    List.length added = 10%nat.
Proof.
  destruct (proj1 run_adds_two_gradients_per_drop SweatDrop.default_options
              (empty_world 0))
    as (added & D & T);
    [intro H; exact H | intro H; exact H |].
  exists added. split; [exact D |].
  apply (f_equal (@List.length gradient_tag)) in T.
  rewrite length_map in T. exact T.
Defined.

Lemma run_consumes_draws_witness :
  cursor (rand (snd (SweatDrop.effect SweatDrop.default_options
                       (empty_world 0)))) = 25%nat /\
  cursor (rand (snd (Teardrop.effect Teardrop.default_options
                       (empty_world 0)))) = 30%nat.
Proof.
  split.
  - apply (proj1 run_consumes_draws SweatDrop.default_options (empty_world 0));
      intro H; exact H.
  - apply (proj2 run_consumes_draws Teardrop.default_options (empty_world 0));
      intro H; exact H.
Defined.

Lemma run_resolves_gradient_references_witness :
  exists drops,
    layer (snd (SweatDrop.effect SweatDrop.default_options (empty_world 0)))
    = [mkGroup "Sweat Drops" drops] /\
    Forall (references_resolved
              (defs (snd (SweatDrop.effect SweatDrop.default_options
                            (empty_world 0)))))
      drops.
Proof.
  apply (proj1 run_resolves_gradient_references SweatDrop.default_options
           (empty_world 0)); intro H; exact H.
Defined.

Lemma drop_labels_are_distinct_witness :
  exists drops,
    layer (snd (SweatDrop.effect SweatDrop.default_options (empty_world 0)))
    = [mkGroup "Sweat Drops" drops] /\
    map label drops = ["Drop_1"; "Drop_2"; "Drop_3"; "Drop_4"; "Drop_5"] /\
    NoDup (map label drops).
Proof.
  apply (proj1 drop_labels_are_distinct SweatDrop.default_options
           (empty_world 0)); exact I.
Defined.

Lemma gradient_ids_collide_iff_draws_coincide_witness :
  fst (SweatDrop.create_shadow_gradient SweatDrop.default_options
         (empty_world 0))
  = fst (SweatDrop.create_shadow_gradient SweatDrop.default_options
           (tick (empty_world 0))).
Proof.
  apply (proj1 gradient_ids_collide_iff_draws_coincide). reflexivity.
Defined.

Lemma shadow_is_the_body_displaced_witness :
  exists shadow body w1 w2 sx sy,
    SweatDrop.create_shadow SweatDrop.default_options (Fin 10) (Fin 10)
      (Fin 20) (empty_world 0) = (inr shadow, w1) /\
    SweatDrop.create_main_drop SweatDrop.default_options (Fin 10) (Fin 10)
      (Fin 20) w1 = (inr body, w2) /\
    get "cx" (attrib shadow) = Some (Num (Fin sx)) /\
    get "cy" (attrib shadow) = Some (Num (Fin sy)) /\
    (sx - 10) * (sx - 10) + (sy - 10) * (sy - 10) = 3 * 3.
Proof.
  destruct (shadow_is_the_body_displaced SweatDrop.default_options
              10 10 20 45 3 (empty_world 0) eq_refl eq_refl)
    as (sh & bo & w1 & w2 & sx & sy & E1 & E2 & X & Y & _ & _ & _ & _ & D).
  exists sh, bo, w1, w2, sx, sy. auto.
Defined.

Lemma highlight_lies_inside_the_body_witness :
  exists highlight hx hy,
    SweatDrop.create_highlight SweatDrop.default_options (Fin 10) (Fin 10)
      (Fin 20) (empty_world 0) = (inr highlight, empty_world 0) /\
    get "cx" (attrib highlight) = Some (Num (Fin hx)) /\
    get "cy" (attrib highlight) = Some (Num (Fin hy)) /\
    (hx - 10) * (hx - 10) + (hy - 10) * (hy - 10)
    = (20 * (3 / 10)) * (20 * (3 / 10)).
Proof.
  destruct (highlight_lies_inside_the_body SweatDrop.default_options
              10 10 20 135 (empty_world 0) eq_refl)
    as (hl & hx & hy & E & X & Y & D & _).
  exists hl, hx, hy. auto.
Defined.

Lemma teardrop_shadow_is_the_body_translated_witness :
  exists shadow body pts,
    fst (Teardrop.create_teardrop_shadow Teardrop.default_options
           (Fin 10) (Fin 10) (Fin 20) (Fin 0) (empty_world 0)) = inr shadow /\
    outline body = Some pts /\
    outline shadow
    = Some (map (fun p => (fst p + cos (45 * (PI / 180)) * 3,
                           snd p + sin (45 * (PI / 180)) * 3)) pts).
Proof.
  destruct (teardrop_shadow_is_the_body_translated Teardrop.default_options
              10 10 20 (Fin 0) 45 3 (15 / 10) (empty_world 0)
              eq_refl eq_refl eq_refl)
    as (sh & bo & w1 & w2 & pts & E1 & _ & B & S).
  exists sh, bo, pts. rewrite E1. auto.
Defined.

Lemma teardrop_highlight_is_the_body_scaled_witness :
  exists highlight body pts,
    fst (Teardrop.create_teardrop_highlight Teardrop.default_options
           (Fin 10) (Fin 10) (Fin 20) (Fin 0) (empty_world 0))
    = inr highlight /\
    outline body = Some pts /\
    outline highlight
    = Some (map (fun p =>
                   (10 + cos (135 * (PI / 180)) * (20 * (2 / 10))
                    + 3 / 10 * (fst p - 10),
                    10 + sin (135 * (PI / 180)) * (20 * (2 / 10))
                    + 3 / 10 * (snd p - 10))) pts).
Proof.
  destruct (teardrop_highlight_is_the_body_scaled Teardrop.default_options
              10 10 20 (Fin 0) 135 (3 / 10) (15 / 10) (empty_world 0)
              eq_refl eq_refl eq_refl)
    as (hl & bo & w2 & pts & E1 & _ & B & S).
  exists hl, bo, pts. rewrite E1. auto.
Defined.

Lemma teardrop_outline_is_symmetric_witness :
  exists pts,
    real_coords
      (coords (Teardrop.create_teardrop_path Teardrop.default_options
                 (Fin 10) (Fin 10) (Fin 20) (Fin 0)))
    = Some pts /\
    rev (map (fun p => (2 * 10 - fst p, snd p)) pts) = pts.
Proof.
  apply (teardrop_outline_is_symmetric Teardrop.default_options
           10 10 20 (Fin 0) (15 / 10) eq_refl).
Defined.

Lemma teardrop_outline_bounding_box_witness :
  exists pts,
    real_coords
      (coords (Teardrop.create_teardrop_path Teardrop.default_options
                 (Fin 10) (Fin 10) (Fin 20) (Fin 0)))
    = Some pts /\
    Forall (fun p =>
              10 - 20 * (6 / 10) / 2 <= fst p <= 10 + 20 * (6 / 10) / 2 /\
              10 - 20 * (15 / 10) * (7 / 10) <= snd p
              <= 10 + 20 * (15 / 10) * (3 / 10))
      pts.
Proof.
  apply (teardrop_outline_bounding_box Teardrop.default_options
           10 10 20 (Fin 0) (15 / 10) eq_refl); lra.
Defined.

Lemma teardrop_outline_joins_witness :
  exists p0 p1 p2 p3 p4 p5 p6 p7 p8 p9 p10 p11 p12,
    real_coords
      (coords (Teardrop.create_teardrop_path Teardrop.default_options
                 (Fin 10) (Fin 10) (Fin 20) (Fin 0)))
    = Some [p0; p1; p2; p3; p4; p5; p6; p7; p8; p9; p10; p11; p12] /\
    fst p3 - fst p2 = fst p4 - fst p3 /\
    snd p3 - snd p2 = snd p4 - snd p3.
Proof.
  destruct (teardrop_outline_joins Teardrop.default_options
              10 10 20 (Fin 0) (15 / 10) eq_refl)
    as (p0 & p1 & p2 & p3 & p4 & p5 & p6 & p7 & p8 & p9 & p10 & p11 & p12
        & E & (A & B) & _).
  exists p0, p1, p2, p3, p4, p5, p6, p7, p8, p9, p10, p11, p12. auto.
Defined.

Lemma teardrop_rotation_range_witness :
  exists x y size t w',
    Teardrop.create_single_teardrop Teardrop.default_options 0
      (Fin 20) (Fin (3 / 10)) (empty_world 0)
    = Teardrop.build_drop_group Teardrop.default_options 0 x y size
        (Fin t) w' /\
    - 30 <= t <= 30.
Proof.
  destruct (teardrop_rotation_range Teardrop.default_options 0%Z
              (Fin 20) (Fin (3 / 10)) (empty_world 0) 30 eq_refl)
    as (x & y & size & t & w' & E & B); [lra |].
  exists x, y, size, t, w'. split; [exact E | exact B].
Defined.

Lemma no_rotation_variation_no_transform_witness :
  exists g,
    fst (Teardrop.create_single_teardrop upright_options 0
           (Fin 20) (Fin (3 / 10)) (empty_world 0)) = inr g /\
    Forall (fun s => transform s = None) (children g).
Proof.
  destruct (tear_create_single_teardrop_returns upright_options
              45 135 eq_refl eq_refl 0 (Fin 20) (Fin (3 / 10))
              (empty_world 0)) as (g & w' & E & _).
  exists g. rewrite E. split; [reflexivity |].
  apply (no_rotation_variation_no_transform upright_options 0%Z
           (Fin 20) (Fin (3 / 10)) (empty_world 0) g w' eq_refl E).
Defined.

Lemma drawn_values_lie_between_the_bounds_witness :
  exists u x y w',
    SweatDrop.create_single_drop SweatDrop.default_options 0
      (Fin 20) (Fin (- (3 / 10))) (empty_world 0)
    = SweatDrop.build_drop_group SweatDrop.default_options 0 (Fin x) (Fin y)
        (Fin (20 * (1 + u))) w' /\
    - (3 / 10) <= u <= 3 / 10.
Proof.
  destruct (proj1 drawn_values_lie_between_the_bounds
              SweatDrop.default_options 0%Z 20 (- (3 / 10)) (empty_world 0)
              200 200 eq_refl eq_refl)
    as (u & x & y & w' & E & U & _).
  exists u, x, y, w'. split; [exact E |].
  unfold Rmin, Rmax in U.
  destruct (Rle_dec (- - (3 / 10)) (- (3 / 10))) as [L | L]; lra.
Defined.
